(** * PINN for the 1D wave equation: the composite loss and its training loop

    A shallow embedding of [PINN_wave_equation.ipynb]: the approximator
    [PINN], the residual evaluator [wave_pinn_loss], the training loop, the
    closed-form [exact_solution] and the reporting helper
    [calculate_accuracy].

    The notebook is written once and runs on whatever floating-point dtype
    its tensors carry.  The embedding keeps that shape: every function is
    written over an abstract numeric [Backend], which is then instantiated
    twice, with the real numbers (exact arithmetic) and with IEEE-754
    binary32 (the dtype of [torch.rand], [torch.linspace] and
    [nn.Linear]). *)

From Stdlib Require Import List Permutation ZArith Bool Arith Lia.
From Stdlib Require Import Reals Lra.
From Stdlib Require Import Floats.SpecFloat.
Import ListNotations.

(** ** The numeric backend *)

(** The scalar operations the notebook applies to tensor elements.
    [of_Z] converts a Python integer literal, [fisnan] is the element test
    behind [torch.isnan], and [fgtb a b] is the comparison [a > b]. *)
Class Backend (F : Type) : Type := {
  of_Z : Z -> F;
  fadd : F -> F -> F;
  fsub : F -> F -> F;
  fmul : F -> F -> F;
  fdiv : F -> F -> F;
  fneg : F -> F;
  fabs : F -> F;
  fsqrt : F -> F;
  fsin : F -> F;
  fcos : F -> F;
  ftanh : F -> F;
  fpi : F;
  fisnan : F -> bool;
  fgtb : F -> F -> bool
}.

Declare Scope num_scope.
Delimit Scope num_scope with num.
Infix "+" := fadd : num_scope.
Infix "-" := fsub : num_scope.
Infix "*" := fmul : num_scope.
Infix "/" := fdiv : num_scope.

(** A failed torch call raises [RuntimeError]; nothing in the notebook
    catches it. *)
Inductive result (A : Type) : Type :=
| Ok (a : A)
| RuntimeError.
Arguments Ok {A} a.
Arguments RuntimeError {A}.

Definition bind {A B : Type} (m : result A) (k : A -> result B) : result B :=
  match m with
  | Ok a => k a
  | RuntimeError => RuntimeError
  end.

Notation "x <- m ;; k" := (bind m (fun x => k))
  (at level 61, m at next level, right associativity).

(** ** Differentiable computations *)

(** The two inputs of the approximator. *)
Inductive var : Type := X | T.

Definition var_eqb (v w : var) : bool :=
  match v, w with
  | X, X | T, T => true
  | _, _ => false
  end.

(** The computation graph of one output row as a function of that row's
    [x] and [t]: what autograd records while a callable built from
    [+], [-], [*], [torch.sin], [torch.cos] and [torch.tanh] runs.
    Parameters and literals are [Const] leaves. *)
Inductive term (F : Type) : Type :=
| Var (v : var)
| Const (k : F)
| Add (a b : term F)
| Sub (a b : term F)
| Mul (a b : term F)
| Neg (a : term F)
| Sin (a : term F)
| Cos (a : term F)
| Tanh (a : term F).
Arguments Var {F} v.
Arguments Const {F} k.
Arguments Add {F} a b.
Arguments Sub {F} a b.
Arguments Mul {F} a b.
Arguments Neg {F} a.
Arguments Sin {F} a.
Arguments Cos {F} a.
Arguments Tanh {F} a.

(** An approximator is a callable applied row by row. *)
Definition approximator (F : Type) : Type := term F.

(** ** Tensors *)

(** A column tensor of shape (N, 1): its elements and its
    [requires_grad] flag. *)
Record tensor (F : Type) : Type := {
  data : list F;
  requires_grad : bool
}.
Arguments data {F} t.
Arguments requires_grad {F} t.

(** A tensor produced by a differentiable callable: the row graph together
    with the two input tensors it was applied to. *)
Record graph_tensor (F : Type) : Type := {
  fn : term F;
  arg_x : tensor F;
  arg_t : tensor F
}.
Arguments fn {F} g.
Arguments arg_x {F} g.
Arguments arg_t {F} g.

(** Element-wise combination of two columns of the same length. *)
Fixpoint map2 {A C E : Type} (f : A -> C -> E) (l : list A) (m : list C) : list E :=
  match l, m with
  | a :: l', c :: m' => f a c :: map2 f l' m'
  | _, _ => []
  end.

(** Whether input [v] occurs in a graph, that is, whether autograd finds a
    path from the output back to that input. *)
Fixpoint uses {F : Type} (v : var) (e : term F) : bool :=
  match e with
  | Var w => var_eqb v w
  | Const _ => false
  | Add a b | Sub a b | Mul a b => uses v a || uses v b
  | Neg a | Sin a | Cos a | Tanh a => uses v a
  end.

Section Scalars.
Context {F : Type} {B : Backend F}.
Local Open Scope num_scope.

Definition zero : F := of_Z 0.
Definition one : F := of_Z 1.

(** The literal [1e-6]. *)
Definition lit_1e_6 : F := of_Z 1 / of_Z 1000000.

(** The literal [0.5]. *)
Definition lit_0_5 : F := of_Z 1 / of_Z 2.

Fixpoint eval (e : term F) (x t : F) : F :=
  match e with
  | Var X => x
  | Var T => t
  | Const k => k
  | Add a b => eval a x t + eval b x t
  | Sub a b => eval a x t - eval b x t
  | Mul a b => eval a x t * eval b x t
  | Neg a => fneg (eval a x t)
  | Sin a => fsin (eval a x t)
  | Cos a => fcos (eval a x t)
  | Tanh a => ftanh (eval a x t)
  end.

(** The graph of the derivative with respect to input [v], by the rules
    autograd applies with [create_graph=True]: the gradient flows back
    only through the operands that [v] occurs in, and what it is
    multiplied by on the way are the operands and results saved by the
    forward pass.  The result is again a graph, so it can be differentiated
    once more. *)
Fixpoint D (v : var) (e : term F) : term F :=
  match e with
  | Var w => Const (if var_eqb v w then one else zero)
  | Const _ => Const zero
  | Add a b =>
      match uses v a, uses v b with
      | true, true => Add (D v a) (D v b)
      | true, false => D v a
      | false, true => D v b
      | false, false => Const zero
      end
  | Sub a b =>
      match uses v a, uses v b with
      | true, true => Sub (D v a) (D v b)
      | true, false => D v a
      | false, true => Neg (D v b)
      | false, false => Const zero
      end
  | Mul a b =>
      match uses v a, uses v b with
      | true, true => Add (Mul (D v a) b) (Mul a (D v b))
      | true, false => Mul (D v a) b
      | false, true => Mul a (D v b)
      | false, false => Const zero
      end
  | Neg a => Neg (D v a)
  | Sin a => Mul (Cos a) (D v a)
  | Cos a => Mul (Neg (Sin a)) (D v a)
  | Tanh a => Mul (Sub (Const one) (Mul (Tanh a) (Tanh a))) (D v a)
  end.

(** The graph reaches input [v], and so does the graph of its derivative
    with respect to [v]. *)
Definition reaches_twice (v : var) (m : term F) : bool :=
  uses v m && uses v (D v m).

(** What [wave_pinn_loss] needs of its approximator, for the four calls of
    [torch.autograd.grad] on its output to go through. *)
Definition twice_differentiable (m : term F) : bool :=
  reaches_twice T m && reaches_twice X m.

(** The elements of a graph tensor ([.detach()] keeps exactly these). *)
Definition values (u : graph_tensor F) : list F :=
  map2 (eval (fn u)) (data (arg_x u)) (data (arg_t u)).

(** [model(x, t)].  [PINN.forward] starts with [torch.cat((x, t), dim=1)],
    which raises unless both columns have the same number of rows.  On
    columns of the same length an element-wise callable such as
    [exact_solution] is applied row by row in the same way. *)
Definition call (model : approximator F) (x t : tensor F) : result (graph_tensor F) :=
  if Nat.eqb (length (data x)) (length (data t))
  then Ok {| fn := model; arg_x := x; arg_t := t |}
  else RuntimeError.

(** Tensor arithmetic on the elements: [a - b], [k * a], [a + k], [a / b]
    and [a ** 2] (which torch evaluates as [a * a]). *)
Definition tsub (a b : list F) : list F := map2 fsub a b.
Definition tdiv (a b : list F) : list F := map2 fdiv a b.
Definition smul (k : F) (a : list F) : list F := map (fmul k) a.
Definition sadd (a : list F) (k : F) : list F := map (fun v => v + k) a.
Definition tpow2 (a : list F) : list F := map (fun v => v * v) a.

End Scalars.

(** The numpy constant and the torch functions the notebook calls, under
    the names it calls them by. *)
Module np.
Definition pi {F : Type} {B : Backend F} : F := fpi.
End np.

Module torch.
Section Ops.
Context {F : Type} {B : Backend F}.

Definition full_like (x : tensor F) (k : F) (rg : bool) : tensor F :=
  {| data := map (fun _ => k) (data x); requires_grad := rg |}.

(** [torch.zeros_like(x, requires_grad=rg)] and [torch.ones_like(t)]. *)
Definition zeros_like (x : tensor F) (rg : bool) : tensor F := full_like x zero rg.
Definition ones_like (x : tensor F) : tensor F := full_like x one false.

(** [torch.linspace(start, end, steps)]: [steps] evenly spaced values from
    [start] to [end], both included, that is [start + i * step] for [i]
    below [steps], with [step = (end - start) / (steps - 1)]. *)
Definition linspace (start stop : F) (steps : nat) : list F :=
  let step := fdiv (fsub stop start) (of_Z (Z.of_nat (steps - 1))) in
  map (fun i => fadd start (fmul (of_Z (Z.of_nat i)) step)) (seq 0 steps).

Definition sin (a : list F) : list F := map fsin a.
Definition cos (a : list F) : list F := map fcos a.
Definition abs (a : list F) : list F := map fabs a.

(** [torch.mean]: the sum of the elements divided by their number.  The
    accumulation order of torch's reduction is not fixed; a left-to-right
    sum stands for it. *)
Definition sum (a : list F) : F := fold_left fadd a zero.
Definition mean (a : list F) : F := fdiv (sum a) (of_Z (Z.of_nat (length a))).

(** [torch.isnan] of a scalar tensor, as the condition of an [if]. *)
Definition isnan (v : F) : bool := fisnan v.

End Ops.

Module nn.
Module utils.
Section Clip.
Context {F : Type} {B : Backend F}.
Local Open Scope num_scope.

(** The global 2-norm of the full parameter-gradient vector. *)
Definition total_norm (g : list F) : F := fsqrt (sum (tpow2 g)).

(** Modelled from the spec: [torch.nn.utils.clip_grad_norm_] is a function
    of the torch library, which the notebook only calls.  Section 4.2,
    step 5: rescale the full parameter-gradient vector so that its global
    norm does not exceed the configured clipping threshold (if the norm
    exceeds the threshold, scale the vector by threshold / norm; otherwise
    leave it unchanged). *)
Definition clip_grad_norm_ (g : list F) (max_norm : F) : list F :=
  if fgtb (total_norm g) max_norm
  then smul (max_norm / total_norm g) g
  else g.

End Clip.
End utils.
End nn.

Module autograd.
Section Grad.
Context {F : Type} {B : Backend F}.

Definition input_of (u : graph_tensor F) (v : var) : tensor F :=
  match v with X => arg_x u | T => arg_t u end.

(** [torch.autograd.grad(u, v, grad_outputs=torch.ones_like(u),
    create_graph=True)[0]].  Rows are independent, so the gradient of the
    sum of the rows with respect to row [i] of the input is the derivative
    of row [i] of the output.  torch raises when the input does not
    require grad, and when the graph of [u] does not reach it. *)
Definition grad (u : graph_tensor F) (v : var) : result (graph_tensor F) :=
  if requires_grad (input_of u v) && uses v (fn u)
  then Ok {| fn := D v (fn u); arg_x := arg_x u; arg_t := arg_t u |}
  else RuntimeError.

End Grad.
End autograd.
End torch.

(** ** The approximator (cell 3) *)

(** [nn.Linear(in_features, out_features)]: one weight row and one bias per
    output feature. *)
Record Linear (F : Type) : Type := {
  weight : list (list F);
  bias : list F
}.
Arguments weight {F} l.
Arguments bias {F} l.

(** [class PINN(nn.Module)]: the parameters held by the four layers.  The
    constructor fixes the shapes (2 to 20, 20 to 20, 20 to 20, 20 to 1);
    the embedding reads them off the lists, see [PINN_shaped]. *)
Record PINN (F : Type) : Type := {
  layer1 : Linear F;
  layer2 : Linear F;
  layer3 : Linear F;
  output_layer : Linear F
}.
Arguments layer1 {F} p.
Arguments layer2 {F} p.
Arguments layer3 {F} p.
Arguments output_layer {F} p.

Section Model.
Context {F : Type} {B : Backend F}.

(** [model.parameters()], flattened: weights then bias, layer by layer. *)
Definition layer_parameters (l : Linear F) : list F :=
  concat (weight l) ++ bias l.

Definition parameters (self : PINN F) : list F :=
  layer_parameters (layer1 self) ++ layer_parameters (layer2 self)
  ++ layer_parameters (layer3 self) ++ layer_parameters (output_layer self).

(** One output feature of a linear layer on one row: the inputs weighted by
    the feature's weight row, plus its bias. *)
Definition feature (input : list (term F)) (row : list F) (b : F) : term F :=
  Add (fold_left Add (map2 (fun h w => Mul h (Const w)) input row) (Const zero))
      (Const b).

Definition linear (l : Linear F) (input : list (term F)) : list (term F) :=
  map2 (feature input) (weight l) (bias l).

(** The shapes the constructor gives the layers, for a hidden width [h]
    (the notebook's is 20). *)
Definition Linear_shaped (n_in n_out : nat) (l : Linear F) : bool :=
  Nat.eqb (length (weight l)) n_out && Nat.eqb (length (bias l)) n_out
  && forallb (fun row => Nat.eqb (length row) n_in) (weight l).

Definition PINN_shaped (h : nat) (self : PINN F) : bool :=
  Nat.ltb 0 h
  && Linear_shaped 2 h (layer1 self) && Linear_shaped h h (layer2 self)
  && Linear_shaped h h (layer3 self) && Linear_shaped h 1 (output_layer self).

(** [PINN.forward]: [torch.cat((x, t), dim=1)] makes each row the pair of
    its [x] and [t]; three [tanh] layers follow, and the output layer has a
    single feature. *)
Definition forward (self : PINN F) : approximator F :=
  let input := [Var X; Var T] in
  let h := map Tanh (linear (layer1 self) input) in
  let h := map Tanh (linear (layer2 self) h) in
  let h := map Tanh (linear (layer3 self) h) in
  hd (Const zero) (linear (output_layer self) h).

(** The same forward pass on the numbers of one row, without recording a
    graph: [nn.Linear] is [input . row + bias] for each output feature. *)
Definition Linear_call (l : Linear F) (input : list F) : list F :=
  map2 (fun row b => fadd (fold_left fadd (map2 fmul input row) zero) b)
    (weight l) (bias l).

Definition forward_row (self : PINN F) (x t : F) : F :=
  let input := [x; t] in
  let h := map ftanh (Linear_call (layer1 self) input) in
  let h := map ftanh (Linear_call (layer2 self) h) in
  let h := map ftanh (Linear_call (layer3 self) h) in
  hd zero (Linear_call (output_layer self) h).

End Model.

(** ** The residual evaluator (cell 4) *)

(** The four local variables [wave_pinn_loss] sums up. *)
Record loss_terms (F : Type) : Type := {
  physics_loss : F;
  initial_loss : F;
  velocity_loss : F;
  boundary_loss : F
}.
Arguments physics_loss {F} l.
Arguments initial_loss {F} l.
Arguments velocity_loss {F} l.
Arguments boundary_loss {F} l.

Section Notebook.
Context {F : Type} {B : Backend F}.
Local Open Scope num_scope.

(** The wave speed, a global of the notebook (cell 2 sets [c = 1.0]).
    [c ** 2] and [c * np.pi] are products of Python floats before they
    meet a tensor; for [c = 1.0] they are the same in every precision. *)
Variable c : F.

(** [x.requires_grad = True]: the assignment changes the caller's tensor
    object; the elements stay. *)
Definition set_requires_grad (x : tensor F) : tensor F :=
  {| data := data x; requires_grad := true |}.

(** The body of [wave_pinn_loss] below its first two assignments, up to
    the four loss terms. *)
Definition wave_pinn_terms (model : approximator F) (x t : tensor F)
  : result (loss_terms F) :=
  u <- call model x t ;;
  u_t <- torch.autograd.grad u T ;;
  u_tt <- torch.autograd.grad u_t T ;;
  u_x <- torch.autograd.grad u X ;;
  u_xx <- torch.autograd.grad u_x X ;;
  let physics_loss :=
    torch.mean (tpow2 (tsub (values u_tt) (smul (c * c) (values u_xx)))) in
  let t_zeros := torch.zeros_like x true in
  u0 <- call model x t_zeros ;;
  let initial_loss :=
    torch.mean (tpow2 (tsub (values u0) (torch.sin (smul np.pi (data x))))) in
  u_t0 <- torch.autograd.grad u0 T ;;
  let velocity_loss := torch.mean (sadd (tpow2 (values u_t0)) lit_1e_6) in
  u_left <- call model (torch.zeros_like t false) t ;;
  u_right <- call model (torch.ones_like t) t ;;
  let boundary_loss :=
    torch.mean (tpow2 (values u_left)) + torch.mean (tpow2 (values u_right)) in
  Ok {| physics_loss := physics_loss;
        initial_loss := initial_loss;
        velocity_loss := velocity_loss;
        boundary_loss := boundary_loss |}.

Definition total_loss (l : loss_terms F) : F :=
  physics_loss l + initial_loss l + velocity_loss l + boundary_loss l.

(** What a call of [wave_pinn_loss] leaves behind: the returned loss (or the
    exception) and the caller's two batch tensors as they are afterwards. *)
Record evaluation : Type := {
  returned : result F;
  x_after : tensor F;
  t_after : tensor F
}.

(** [wave_pinn_loss(model, x, t)]. *)
Definition wave_pinn_loss (model : approximator F) (x t : tensor F) : evaluation :=
  let x := set_requires_grad x in
  let t := set_requires_grad t in
  {| returned := (l <- wave_pinn_terms model x t ;; Ok (total_loss l));
     x_after := x;
     t_after := t |}.

(** ** The reference solution and the accuracy report (cell 9) *)

(** [exact_solution(x, t)], as a row-wise callable. *)
Definition exact_solution : approximator F :=
  Mul (Sin (Mul (Const np.pi) (Var X))) (Cos (Mul (Const (c * np.pi)) (Var T))).

(** [calculate_accuracy(model, x_test, t_test)]: the pair
    [(mse.item(), relative_error.item())]. *)
Definition calculate_accuracy (model : approximator F) (x_test t_test : tensor F)
  : result (F * F) :=
  u_pred <- call model x_test t_test ;;
  let u_pred := values u_pred in
  u_exact <- call exact_solution x_test t_test ;;
  let u_exact := values u_exact in
  let mse := torch.mean (tpow2 (tsub u_pred u_exact)) in
  let relative_error :=
    torch.mean (torch.abs (tdiv (tsub u_pred u_exact) u_exact)) * of_Z 100 in
  Ok (mse, relative_error).

End Notebook.

(** ** The test grid (cells 8 and 9) *)

Section TestGrid.
Context {F : Type} {B : Backend F}.

(** [x_test = torch.linspace(0, 1, 100).view(-1, 1)] and
    [t_test = torch.full_like(x_test, 0.5)]. *)
Definition x_test : tensor F :=
  {| data := torch.linspace zero one 100; requires_grad := false |}.
Definition t_test : tensor F := torch.full_like x_test lit_0_5 false.

End TestGrid.

(** ** The training loop (cells 6 and 7) *)

(** The two lines the loop prints. *)
Inductive message (F : Type) : Type :=
| NaN_encountered (epoch : nat)
| Epoch_loss (epoch : nat) (loss : F).
Arguments NaN_encountered {F} epoch.
Arguments Epoch_loss {F} epoch loss.

(** What one pass of the loop body does to its surroundings, in program
    order: the library calls it makes and the lines it prints. *)
Inductive event (F : Type) : Type :=
| zero_grad_called
| loss_evaluated (loss : result F)
| backward_called
| clip_grad_norm_called
| step_called
| printed (m : message F).
Arguments zero_grad_called {F}.
Arguments loss_evaluated {F} loss.
Arguments backward_called {F}.
Arguments clip_grad_norm_called {F}.
Arguments step_called {F}.
Arguments printed {F} m.

(** The objects the loop works on: the model's parameters and their
    accumulated gradient (flattened in the order of [model.parameters()],
    absent when cleared), the optimizer's own state, the fixed collocation
    batch, and the events so far (oldest first). *)
Record training_state (F O : Type) : Type := {
  model : PINN F;
  grads : option (list F);
  optimizer : O;
  x_train : tensor F;
  t_train : tensor F;
  trace : list (event F)
}.
Arguments model {F O} _.
Arguments grads {F O} _.
Arguments optimizer {F O} _.
Arguments x_train {F O} _.
Arguments t_train {F O} _.
Arguments trace {F O} _.

(** How a pass of the body ends, and how the [for] statement ends. *)
Inductive control : Type := Continue | Break | Raise.

Inductive loop_exit : Type :=
| range_exhausted
| stopped_at (epoch : nat)
| raised_at (epoch : nat).

Section Training.
Context {F : Type} {B : Backend F}.
Variable c : F.

(** The optimizer's state (for Adam: the moment estimates and step counts)
    and the two library operations whose code is outside the notebook:
    [param_grad m x t] is the gradient that [loss.backward()] computes for
    the parameters of [m] on the batch, and [optimizer_step] is
    [optimizer.step()]. *)
Context {O : Type}.
Variable param_grad : PINN F -> tensor F -> tensor F -> list F.
Variable optimizer_step : O -> PINN F -> list F -> PINN F * O.

Local Abbreviation state := (training_state F O).

Definition log (e : event F) (st : state) : state :=
  {| model := model st; grads := grads st; optimizer := optimizer st;
     x_train := x_train st; t_train := t_train st;
     trace := trace st ++ [e] |}.

(** [optimizer.zero_grad()]. *)
Definition zero_grad (st : state) : state :=
  log zero_grad_called
    {| model := model st; grads := None; optimizer := optimizer st;
       x_train := x_train st; t_train := t_train st; trace := trace st |}.

(** [loss = wave_pinn_loss(model, x_train, t_train)]. *)
Definition evaluate_loss (st : state) : result F * state :=
  let r := wave_pinn_loss c (forward (model st)) (x_train st) (t_train st) in
  (returned r,
   log (loss_evaluated (returned r))
     {| model := model st; grads := grads st; optimizer := optimizer st;
        x_train := x_after r; t_train := t_after r; trace := trace st |}).

(** [loss.backward()]: gradients accumulate into the parameters' [.grad]. *)
Definition backward (st : state) : state :=
  let g := param_grad (model st) (x_train st) (t_train st) in
  log backward_called
    {| model := model st;
       grads := Some (match grads st with
                      | Some old => map2 fadd old g
                      | None => g
                      end);
       optimizer := optimizer st;
       x_train := x_train st; t_train := t_train st; trace := trace st |}.

(** [torch.nn.utils.clip_grad_norm_(model.parameters(), max_norm=1.0)]. *)
Definition clip (st : state) : state :=
  log clip_grad_norm_called
    {| model := model st;
       grads := option_map (fun g => torch.nn.utils.clip_grad_norm_ g one) (grads st);
       optimizer := optimizer st;
       x_train := x_train st; t_train := t_train st; trace := trace st |}.

(** [optimizer.step()]: parameters without a gradient are left alone. *)
Definition step (st : state) : state :=
  log step_called
    match grads st with
    | Some g =>
        let '(m, o) := optimizer_step (optimizer st) (model st) g in
        {| model := m; grads := grads st; optimizer := o;
           x_train := x_train st; t_train := t_train st; trace := trace st |}
    | None => st
    end.

Definition print (m : message F) (st : state) : state := log (printed m) st.

(** The body of [for epoch in range(num_epochs)]. *)
Definition epoch_body (epoch : nat) (st : state) : control * state :=
  let st := zero_grad st in
  let '(loss, st) := evaluate_loss st in
  match loss with
  | RuntimeError => (Raise, st)
  | Ok loss =>
      if torch.isnan loss then (Break, print (NaN_encountered epoch) st)
      else
        let st := backward st in
        let st := clip st in
        let st := step st in
        let st := if Nat.eqb (epoch mod 500) 0
                  then print (Epoch_loss epoch loss) st
                  else st in
        (Continue, st)
  end.

Fixpoint for_epochs (epochs : list nat) (st : state) : loop_exit * state :=
  match epochs with
  | [] => (range_exhausted, st)
  | epoch :: rest =>
      match epoch_body epoch st with
      | (Continue, st') => for_epochs rest st'
      | (Break, st') => (stopped_at epoch, st')
      | (Raise, st') => (raised_at epoch, st')
      end
  end.

Definition training_loop (num_epochs : nat) (st : state) : loop_exit * state :=
  for_epochs (seq 0 num_epochs) st.

End Training.

(** [num_epochs = 5000], and the hidden width of [PINN()]. *)
Definition num_epochs : nat := 5000.
Definition hidden : nat := 20.

(** ** Exact arithmetic *)

(** The backend of the real numbers: no value is NaN or infinite. *)
#[export] Instance exact : Backend R := {|
  of_Z := IZR;
  fadd := Rplus;
  fsub := Rminus;
  fmul := Rmult;
  fdiv := Rdiv;
  fneg := Ropp;
  fabs := Rabs;
  fsqrt := R_sqrt.sqrt;
  fsin := Rtrigo_def.sin;
  fcos := Rtrigo_def.cos;
  ftanh := Rtrigo_def.tanh;
  fpi := PI;
  fisnan := fun _ => false;
  fgtb := fun a b => if Rlt_dec b a then true else false
|}.

(** ** IEEE-754 binary32 *)

(** [torch.float32]: 24 bits of precision, exponents below 128. *)
Definition float32 : Type := spec_float.
Definition prec : Z := 24.
Definition emax : Z := 128.

(** The elementary functions come from the platform's math library, which
    is not part of the notebook. *)
Record Libm : Type := {
  libm_sin : float32 -> float32;
  libm_cos : float32 -> float32;
  libm_tanh : float32 -> float32
}.

Definition is_nan (v : float32) : bool :=
  match v with S754_nan => true | _ => false end.

Definition is_finite (v : float32) : bool :=
  match v with S754_zero _ | S754_finite _ _ _ => true | _ => false end.

(** [not_negative v]: [v] is +0, a positive finite number or plus
    infinity.  [positive_finite v]: [v] is a positive finite number. *)
Definition not_negative (v : float32) : bool :=
  match v with
  | S754_zero false | S754_infinity false | S754_finite false _ _ => true
  | _ => false
  end.

Definition positive_finite (v : float32) : bool :=
  match v with S754_finite false _ _ => true | _ => false end.

(** The outcome of rounding a non-negative mantissa with sign [s]: a
    zero, a finite number or an infinity of that sign. *)
Definition signed (s : bool) (v : float32) : Prop :=
  match v with
  | S754_zero s' | S754_infinity s' | S754_finite s' _ _ => s' = s
  | S754_nan => False
  end.

(** [np.pi] rounded to binary32: 13176795 * 2^-22. *)
Definition pi32 : float32 := S754_finite false 13176795 (-22).

Definition binary32 (L : Libm) : Backend float32 := {|
  of_Z := fun z => binary_normalize prec emax z 0 false;
  fadd := SFadd prec emax;
  fsub := SFsub prec emax;
  fmul := SFmul prec emax;
  fdiv := SFdiv prec emax;
  fneg := SFopp;
  fabs := SFabs;
  fsqrt := SFsqrt prec emax;
  fsin := libm_sin L;
  fcos := libm_cos L;
  ftanh := libm_tanh L;
  fpi := pi32;
  fisnan := is_nan;
  fgtb := fun a b => SFltb b a
|}.

(** A small math library for running the notebook on concrete inputs:
    low-order Taylor polynomials, evaluated in binary32.  They are exact
    where it matters below: sin 0 = 0, cos 0 = 1 and tanh 0 = 0. *)
Definition poly_sin (v : float32) : float32 :=
  let v3 := SFmul prec emax v (SFmul prec emax v v) in
  let v5 := SFmul prec emax v3 (SFmul prec emax v v) in
  SFadd prec emax
    (SFsub prec emax v (SFdiv prec emax v3 (binary_normalize prec emax 6 0 false)))
    (SFdiv prec emax v5 (binary_normalize prec emax 120 0 false)).

Definition poly_cos (v : float32) : float32 :=
  let v2 := SFmul prec emax v v in
  let v4 := SFmul prec emax v2 v2 in
  SFadd prec emax
    (SFsub prec emax (binary_normalize prec emax 1 0 false)
       (SFdiv prec emax v2 (binary_normalize prec emax 2 0 false)))
    (SFdiv prec emax v4 (binary_normalize prec emax 24 0 false)).

Definition poly_tanh (v : float32) : float32 :=
  let v3 := SFmul prec emax v (SFmul prec emax v v) in
  SFsub prec emax v (SFdiv prec emax v3 (binary_normalize prec emax 3 0 false)).

Definition poly_libm : Libm :=
  {| libm_sin := poly_sin; libm_cos := poly_cos; libm_tanh := poly_tanh |}.

(** ** The loss as the specification words it *)

Section Specification.
Context {F : Type} {B : Backend F}.
Local Open Scope num_scope.
Variable c : F.

(** The approximator as a function of a point, and its first and second
    partial derivatives. *)
Definition u (m : approximator F) (x t : F) : F := eval m x t.
Definition u_t (m : approximator F) (x t : F) : F := eval (D T m) x t.
Definition u_tt (m : approximator F) (x t : F) : F := eval (D T (D T m)) x t.
Definition u_x (m : approximator F) (x t : F) : F := eval (D X m) x t.
Definition u_xx (m : approximator F) (x t : F) : F := eval (D X (D X m)) x t.

Definition sq (v : F) : F := v * v.

(** The residuals at one sample: of the PDE, of the initial displacement
    and of the initial velocity; the boundary residual is the value itself
    at [x = 0] and at [x = 1]. *)
Definition pde_residual (m : approximator F) (x t : F) : F :=
  u_tt m x t - (c * c) * u_xx m x t.
Definition displacement_residual (m : approximator F) (x : F) : F :=
  u m x zero - fsin (np.pi * x).
Definition velocity_residual (m : approximator F) (x : F) : F :=
  u_t m x zero.

(** The four terms over a batch [xs], [ts]. *)
Definition spec_physics_loss (m : approximator F) (xs ts : list F) : F :=
  torch.mean (map2 (fun x t => sq (pde_residual m x t)) xs ts).
Definition spec_initial_loss (m : approximator F) (xs : list F) : F :=
  torch.mean (map (fun x => sq (displacement_residual m x)) xs).
Definition spec_velocity_loss (m : approximator F) (xs : list F) : F :=
  torch.mean (map (fun x => sq (velocity_residual m x) + lit_1e_6) xs).
Definition spec_boundary_loss (m : approximator F) (ts : list F) : F :=
  torch.mean (map (fun t => sq (u m zero t)) ts)
  + torch.mean (map (fun t => sq (u m one t)) ts).

Definition spec_composite_loss (m : approximator F) (xs ts : list F) : F :=
  spec_physics_loss m xs ts + spec_initial_loss m xs
  + spec_velocity_loss m xs + spec_boundary_loss m ts.

End Specification.

(** ** Vocabulary of the statements *)

Section LoopVocabulary.
Context {F : Type} {B : Backend F}.
Context {O : Type}.
Variable param_grad : PINN F -> tensor F -> tensor F -> list F.

Local Abbreviation state := (training_state F O).

(** The batch the loss is evaluated on: the stored one, flagged. *)
Definition flagged_x (st : state) : tensor F := set_requires_grad (x_train st).
Definition flagged_t (st : state) : tensor F := set_requires_grad (t_train st).

(** The gradient handed to the optimizer in a pass that goes through. *)
Definition clipped_grad (st : state) : list F :=
  torch.nn.utils.clip_grad_norm_
    (param_grad (model st) (flagged_x st) (flagged_t st)) one.

Definition progress_line (epoch : nat) (loss : F) : list (event F) :=
  if Nat.eqb (epoch mod 500) 0 then [printed (Epoch_loss epoch loss)] else [].

(** What the loop keeps true of its state: both columns of the batch have
    the same number of rows, and the model has the shapes of a [PINN] of
    hidden width [h]. *)
Definition well_shaped (h : nat) (st : state) : Prop :=
  length (data (x_train st)) = length (data (t_train st)) /\
  PINN_shaped h (model st) = true.

(** [optimizer.step()] updates parameter values in place: shapes stay. *)
Definition keeps_shape (h : nat)
    (optimizer_step : O -> PINN F -> list F -> PINN F * O) : Prop :=
  forall (o : O) (m : PINN F) (g : list F),
    PINN_shaped h m = true -> PINN_shaped h (fst (optimizer_step o m g)) = true.

End LoopVocabulary.

Definition is_zero_grad {F : Type} (e : event F) : bool :=
  match e with zero_grad_called => true | _ => false end.

(** The number of passes of the loop body a trace records: each pass
    starts with one [optimizer.zero_grad()]. *)
Definition iterations {F : Type} (tr : list (event F)) : nat :=
  length (filter is_zero_grad tr).

(** Counting the other events of a trace. *)
Definition is_backward {F : Type} (e : event F) : bool :=
  match e with backward_called => true | _ => false end.
Definition is_clip {F : Type} (e : event F) : bool :=
  match e with clip_grad_norm_called => true | _ => false end.
Definition is_step {F : Type} (e : event F) : bool :=
  match e with step_called => true | _ => false end.
Definition is_progress_line {F : Type} (e : event F) : bool :=
  match e with printed (Epoch_loss _ _) => true | _ => false end.

Definition count {F : Type} (p : event F -> bool) (tr : list (event F)) : nat :=
  length (filter p tr).

(** The number of passes of the body that ran to their end, in a loop over
    [range(n)] that ended as [how] says. *)
Definition completed (n : nat) (how : loop_exit) : nat :=
  match how with
  | range_exhausted => n
  | stopped_at k | raised_at k => k
  end.

(** The same objects in two states of the loop: everything but the lines
    and calls logged so far. *)
Definition same_objects {F O : Type} (st st' : training_state F O) : Prop :=
  model st = model st' /\ grads st = grads st' /\ optimizer st = optimizer st' /\
  x_train st = x_train st' /\ t_train st = t_train st'.

(** The exit of a loop whose epochs are numbered from [n] on. *)
Definition shift_exit (n : nat) (how : loop_exit) : loop_exit :=
  match how with
  | range_exhausted => range_exhausted
  | stopped_at k => stopped_at (n + k)
  | raised_at k => raised_at (n + k)
  end.

(** The values the evaluator reads off the approximator on a batch: its
    output and its first and second derivatives at the samples, its output
    and time derivative at [t = 0], and its output on both boundaries. *)
Definition required_values {F : Type} {B : Backend F}
    (m : approximator F) (xs ts : list F) : list F :=
  map2 (u m) xs ts ++ map2 (u_t m) xs ts ++ map2 (u_tt m) xs ts
  ++ map2 (u_x m) xs ts ++ map2 (u_xx m) xs ts
  ++ map (fun x => u m x zero) xs ++ map (fun x => u_t m x zero) xs
  ++ map (fun t => u m zero t) ts ++ map (fun t => u m one t) ts.

(** The approximator along one input, the other held fixed, and the
    coordinate that varies. *)
Definition slice (v : var) (m : term R) (x t : R) : R -> R :=
  match v with
  | X => fun s => eval m s t
  | T => fun s => eval m x s
  end.

Definition coordinate (v : var) (x t : R) : R :=
  match v with X => x | T => t end.

(** ** Concrete inputs *)

(** A column as [torch.rand] or [torch.linspace] returns it: it does not
    require grad. *)
Definition column {F : Type} (l : list F) : tensor F :=
  {| data := l; requires_grad := false |}.

Definition half : R := 1 / 2.
Definition sample_x : tensor R := column [0; half; 1]%R.
Definition sample_t : tensor R := column [half; 0; 1]%R.

(** Concrete data for runs in binary32. *)
Definition two_pow_100 : float32 := S754_finite false 8388608 77.
Definition f32_half : float32 := S754_finite false 8388608 (-24).

(** A [PINN] of hidden width [h] whose parameters are all zero except the
    bias of the output layer: its output is that bias at every point. *)
Definition bias_pinn {F : Type} {B : Backend F} (h : nat) (k : F) : PINN F :=
  {| layer1 := {| weight := repeat [zero; zero] h; bias := repeat zero h |};
     layer2 := {| weight := repeat (repeat zero h) h; bias := repeat zero h |};
     layer3 := {| weight := repeat (repeat zero h) h; bias := repeat zero h |};
     output_layer := {| weight := [repeat zero h]; bias := [k] |} |}.

#[export] Instance f32 : Backend float32 := binary32 poly_libm.

Definition grid_x : tensor float32 :=
  column [zero; f32_half; one].
Definition grid_t : tensor float32 := column [f32_half; f32_half; f32_half].

(** Stand-ins for the two library operations in concrete runs: a gradient
    that is zero in every parameter, and an optimizer that keeps the
    parameters and counts its steps. *)
Definition no_gradient {F : Type} {B : Backend F}
    (m : PINN F) (x t : tensor F) : list F :=
  map (fun _ => zero) (parameters m).
Definition counting_step {F : Type} (o : nat) (m : PINN F) (g : list F)
  : PINN F * nat := (m, S o).

Definition start (h : nat) (k : float32) : training_state float32 nat :=
  {| model := bias_pinn h k; grads := None; optimizer := 0%nat;
     x_train := grid_x; t_train := grid_t; trace := [] |}.

(** A starting state in exact arithmetic. *)
Definition exact_start : training_state R nat :=
  {| model := bias_pinn hidden 0%R; grads := None; optimizer := 0%nat;
     x_train := sample_x; t_train := sample_t; trace := [] |}.


(** * Properties *)

(** ** Lists and tensors *)

Lemma map2_const_r {A C E : Type} (f : A -> C -> E) (k : C) (l : list A) :
  map2 f l (map (fun _ => k) l) = map (fun a => f a k) l.
Proof. induction l as [|a l IH]; simpl; [reflexivity | now rewrite IH]. Qed.

Lemma map2_const_l {A C E : Type} (f : A -> C -> E) (k : A) (m : list C) :
  map2 f (map (fun _ => k) m) m = map (fun b => f k b) m.
Proof. induction m as [|b m IH]; simpl; [reflexivity | now rewrite IH]. Qed.

Lemma map2_map2 {A C E G H : Type} (h : E -> G -> H) (f : A -> C -> E)
    (g : A -> C -> G) (l : list A) (m : list C) :
  map2 h (map2 f l m) (map2 g l m) = map2 (fun a b => h (f a b) (g a b)) l m.
Proof.
  revert m; induction l as [|a l IH]; intros [|b m]; simpl; try reflexivity.
  now rewrite IH.
Qed.

Lemma map_map2 {A C E G : Type} (h : E -> G) (f : A -> C -> E)
    (l : list A) (m : list C) :
  map h (map2 f l m) = map2 (fun a b => h (f a b)) l m.
Proof.
  revert m; induction l as [|a l IH]; intros [|b m]; simpl; try reflexivity.
  now rewrite IH.
Qed.

Lemma map2_map_map {A E G H : Type} (h : E -> G -> H) (f : A -> E) (g : A -> G)
    (l : list A) :
  map2 h (map f l) (map g l) = map (fun a => h (f a) (g a)) l.
Proof. induction l as [|a l IH]; simpl; [reflexivity | now rewrite IH]. Qed.

Section EvaluatorShape.
Context {F : Type} {B : Backend F}.
Variable c : F.

Lemma call_same_length (m : approximator F) (x t : tensor F) :
  length (data x) = length (data t) ->
  call m x t = Ok {| fn := m; arg_x := x; arg_t := t |}.
Proof. intros H; unfold call; rewrite H, Nat.eqb_refl; reflexivity. Qed.

Lemma twice_differentiable_inv (m : approximator F) :
  twice_differentiable m = true ->
  uses T m = true /\ uses T (D T m) = true /\
  uses X m = true /\ uses X (D X m) = true.
Proof.
  unfold twice_differentiable, reaches_twice. intros H.
  apply andb_prop in H as [H1 H2].
  apply andb_prop in H1 as [HT1 HT2]. apply andb_prop in H2 as [HX1 HX2]. auto.
Qed.

(** For an approximator whose graph reaches both inputs at both orders, on
    a batch of two columns of the same length, nothing raises, and the
    four locals are the four means of the specification. *)
Lemma wave_pinn_terms_spec (m : approximator F) (x t : tensor F) :
  twice_differentiable m = true ->
  length (data x) = length (data t) ->
  wave_pinn_terms c m (set_requires_grad x) (set_requires_grad t) =
  Ok {| physics_loss := spec_physics_loss c m (data x) (data t);
        initial_loss := spec_initial_loss m (data x);
        velocity_loss := spec_velocity_loss m (data x);
        boundary_loss := spec_boundary_loss m (data t) |}.
Proof.
  intros Hm Hlen.
  destruct (twice_differentiable_inv m Hm) as (HT1 & HT2 & HX1 & HX2).
  unfold wave_pinn_terms, torch.autograd.grad.
  rewrite call_same_length by exact Hlen; simpl.
  rewrite HT1; simpl. rewrite HT2; simpl. rewrite HX1; simpl. rewrite HX2; simpl.
  rewrite call_same_length by (simpl; now rewrite length_map); simpl.
  rewrite HT1; simpl.
  rewrite !call_same_length by (simpl; now rewrite length_map); simpl.
  unfold spec_physics_loss, spec_initial_loss, spec_velocity_loss,
    spec_boundary_loss, values, tpow2, tsub, smul, sadd, torch.sin; simpl.
  rewrite !map2_const_r, !map2_const_l, !map_map.
  rewrite !map_map2, map2_map2, map2_map_map.
  reflexivity.
Qed.

End EvaluatorShape.

(** ** The graph of a [PINN] reaches both inputs *)

Section Reach.
Context {F : Type} {B : Backend F}.
Variable v : var.

Lemma reaches_twice_tanh (a : term F) :
  uses v a = true -> reaches_twice v (Tanh a) = true.
Proof. intros H. unfold reaches_twice. simpl. now rewrite H. Qed.

Lemma reaches_twice_weighted (a : term F) (w : F) :
  reaches_twice v a = true -> reaches_twice v (Mul a (Const w)) = true.
Proof.
  unfold reaches_twice. intros H. apply andb_prop in H as [H1 H2].
  simpl. rewrite H1. simpl. now rewrite H2.
Qed.

Lemma reaches_twice_add_l (a b : term F) :
  reaches_twice v a = true -> reaches_twice v (Add a b) = true.
Proof.
  unfold reaches_twice. intros H. apply andb_prop in H as [H1 H2].
  simpl. rewrite H1. destruct (uses v b); simpl; now rewrite H2.
Qed.

Lemma reaches_twice_add_r (a b : term F) :
  reaches_twice v b = true -> reaches_twice v (Add a b) = true.
Proof.
  unfold reaches_twice. intros H. apply andb_prop in H as [H1 H2].
  simpl. rewrite H1. destruct (uses v a); simpl; rewrite H2;
    auto using orb_true_r.
Qed.

Lemma reaches_twice_fold (l : list (term F)) (acc : term F) :
  reaches_twice v acc = true -> reaches_twice v (fold_left Add l acc) = true.
Proof.
  revert acc; induction l as [|e l IH]; intros acc H; simpl; [exact H|].
  now apply IH, reaches_twice_add_l.
Qed.

(** A feature of a layer whose first input reaches [v] twice. *)
Lemma reaches_twice_feature (input : list (term F)) (row : list F) (b : F) :
  Forall (fun e => reaches_twice v e = true) input ->
  length input = length row -> input <> [] ->
  reaches_twice v (feature input row b) = true.
Proof.
  intros Hall Hlen Hne.
  destruct input as [|e input]; [congruence|].
  destruct row as [|w row]; [discriminate|].
  inversion Hall; subst. unfold feature; simpl.
  apply reaches_twice_add_l, reaches_twice_fold, reaches_twice_add_r.
  now apply reaches_twice_weighted.
Qed.

(** A feature of the first layer, on the row [(x, t)]. *)
Lemma uses_first_feature (row : list F) (b : F) :
  length row = 2 -> uses v (feature [Var X; Var T] row b) = true.
Proof.
  destruct row as [|w0 [|w1 [|w2 row]]]; try discriminate.
  intros _. destruct v; reflexivity.
Qed.

Lemma Linear_shaped_inv (n_in n_out : nat) (l : Linear F) :
  Linear_shaped n_in n_out l = true ->
  length (weight l) = n_out /\ length (bias l) = n_out /\
  Forall (fun row => length row = n_in) (weight l).
Proof.
  unfold Linear_shaped. intros H.
  apply andb_prop in H as [H Hrows]. apply andb_prop in H as [Hw Hb].
  apply Nat.eqb_eq in Hw, Hb. repeat split; try assumption.
  rewrite forallb_forall in Hrows. apply Forall_forall.
  intros row Hin. now apply Nat.eqb_eq, Hrows.
Qed.

Lemma linear_length (n_in n_out : nat) (l : Linear F) (input : list (term F)) :
  Linear_shaped n_in n_out l = true -> length (linear l input) = n_out.
Proof.
  intros H. apply Linear_shaped_inv in H as (Hw & Hb & _). unfold linear.
  generalize dependent n_out. generalize (bias l).
  induction (weight l) as [|row rows IH]; intros [|b bs] n Hw Hb;
    simpl in *; try congruence.
  subst n. f_equal. apply (IH bs (length rows)); [reflexivity | congruence].
Qed.

Lemma linear_Forall (P : term F -> Prop) (n_in n_out : nat) (l : Linear F)
    (input : list (term F)) :
  Linear_shaped n_in n_out l = true ->
  (forall row b, length row = n_in -> P (feature input row b)) ->
  Forall P (linear l input).
Proof.
  intros H HP. apply Linear_shaped_inv in H as (_ & _ & Hrows). unfold linear.
  generalize (bias l).
  induction Hrows as [|row rows Hrow _ IH]; intros [|b bs]; simpl;
    constructor; auto.
Qed.

(** A hidden layer keeps every feature reaching [v] twice. *)
Lemma hidden_layer_reaches (h : nat) (l : Linear F) (input : list (term F)) :
  Linear_shaped h h l = true -> (0 < h)%nat ->
  Forall (fun e => reaches_twice v e = true) input -> length input = h ->
  Forall (fun e => reaches_twice v e = true) (map Tanh (linear l input)) /\
  length (map Tanh (linear l input)) = h.
Proof.
  intros Hl Hh Hall Hlen. split.
  - apply Forall_map. apply (linear_Forall _ h h l input Hl).
    intros row b Hrow. apply reaches_twice_tanh.
    assert (Hf : reaches_twice v (feature input row b) = true).
    { apply reaches_twice_feature; [exact Hall | congruence |].
      destruct input; simpl in *; [lia | discriminate]. }
    unfold reaches_twice in Hf. now apply andb_prop in Hf.
  - rewrite length_map. now apply (linear_length h h).
Qed.

Lemma forward_reaches_twice (h : nat) (self : PINN F) :
  PINN_shaped h self = true -> reaches_twice v (forward self) = true.
Proof.
  unfold PINN_shaped. intros H.
  apply andb_prop in H as [H H4]. apply andb_prop in H as [H H3].
  apply andb_prop in H as [H H2]. apply andb_prop in H as [Hh H1].
  apply Nat.ltb_lt in Hh. unfold forward.
  set (h1 := map Tanh (linear (layer1 self) [Var X; Var T])).
  assert (A1 : Forall (fun e => reaches_twice v e = true) h1 /\ length h1 = h).
  { split.
    - apply Forall_map. apply (linear_Forall _ 2 h _ _ H1).
      intros row b Hrow. now apply reaches_twice_tanh, uses_first_feature.
    - unfold h1. rewrite length_map. now apply (linear_length 2 h). }
  destruct A1 as [A1 L1].
  destruct (hidden_layer_reaches h (layer2 self) h1 H2 Hh A1 L1) as [A2 L2].
  set (h2 := map Tanh (linear (layer2 self) h1)) in *.
  destruct (hidden_layer_reaches h (layer3 self) h2 H3 Hh A2 L2) as [A3 L3].
  set (h3 := map Tanh (linear (layer3 self) h2)) in *.
  pose proof (linear_length h 1 (output_layer self) h3 H4) as L4.
  assert (A4 : Forall (fun e => reaches_twice v e = true)
                 (linear (output_layer self) h3)).
  { apply (linear_Forall _ h 1 _ _ H4). intros row b Hrow.
    apply reaches_twice_feature; [exact A3 | congruence |].
    destruct h3; simpl in *; [lia | discriminate]. }
  destruct (linear (output_layer self) h3) as [|e es]; [discriminate|].
  now inversion A4.
Qed.

End Reach.

(** The four derivatives [wave_pinn_loss] takes exist for a [PINN] of any
    positive hidden width. *)
Lemma forward_twice_differentiable {F : Type} {B : Backend F}
    (h : nat) (self : PINN F) :
  PINN_shaped h self = true -> twice_differentiable (forward self) = true.
Proof.
  intros H. unfold twice_differentiable.
  now rewrite !(forward_reaches_twice _ h self H).
Qed.

(** ** Autograd computes partial derivatives (exact arithmetic) *)

Section Derivative.
Local Open Scope R_scope.

Lemma cosh_pos (y : R) : 0 < cosh y.
Proof.
  unfold cosh. pose proof (exp_pos y). pose proof (exp_pos (- y)). lra.
Qed.

Lemma derivable_pt_lim_tanh (y : R) :
  derivable_pt_lim tanh y (1 - tanh y * tanh y).
Proof.
  pose proof (cosh_pos y) as Hc.
  assert (Hne : cosh y <> 0) by lra.
  replace (1 - tanh y * tanh y)
    with ((cosh y * cosh y - sinh y * sinh y) / Rsqr (cosh y))
    by (unfold tanh, Rsqr; field; exact Hne).
  change tanh with (sinh / cosh)%F.
  apply derivable_pt_lim_div.
  - apply derivable_pt_lim_sinh.
  - apply derivable_pt_lim_cosh.
  - exact Hne.
Qed.

Lemma slice_at (v : var) (m : term R) (x t : R) :
  slice v m x t (coordinate v x t) = eval m x t.
Proof. destruct v; reflexivity. Qed.

(** An input that does not occur in a graph does not move its value. *)
Lemma unused_slice (v : var) (m : term R) (x t s : R) :
  uses v m = false -> slice v m x t s = eval m x t.
Proof.
  induction m as [w|k|a IHa b IHb|a IHa b IHb|a IHa b IHb|a IHa|a IHa|a IHa|a IHa];
    simpl; intros H;
    try (apply orb_false_elim in H as [Ha Hb];
         specialize (IHa Ha); specialize (IHb Hb));
    try specialize (IHa H);
    destruct v; try destruct w; simpl in *; try discriminate;
    rewrite ?IHa, ?IHb; reflexivity.
Qed.

Lemma unused_derivative (v : var) (m : term R) (x t : R) :
  uses v m = false ->
  derivable_pt_lim (slice v m x t) (coordinate v x t) 0.
Proof.
  intros H.
  apply derivable_pt_lim_ext with (f := fct_cte (eval m x t)).
  - intros s. unfold fct_cte. symmetry. now apply unused_slice.
  - apply derivable_pt_lim_const.
Qed.

(** [D v m] evaluates to the partial derivative of [m] with respect to
    [v], at every point. *)
Lemma D_partial_derivative (v : var) (m : term R) (x t : R) :
  derivable_pt_lim (slice v m x t) (coordinate v x t) (eval (D v m) x t).
Proof.
  induction m as [w|k|a IHa b IHb|a IHa b IHb|a IHa b IHb|a IHa|a IHa|a IHa|a IHa].
  - destruct v, w; simpl.
    + apply derivable_pt_lim_id.
    + apply derivable_pt_lim_const.
    + apply derivable_pt_lim_const.
    + apply derivable_pt_lim_id.
  - destruct v; apply derivable_pt_lim_const.
  - apply derivable_pt_lim_ext
      with (f := (slice v a x t + slice v b x t)%F);
      [destruct v; reflexivity|].
    cbn [D]. destruct (uses v a) eqn:Ua, (uses v b) eqn:Ub.
    + simpl. now apply derivable_pt_lim_plus.
    + pose proof (derivable_pt_lim_plus _ _ _ _ _ IHa
                    (unused_derivative v b x t Ub)) as H.
      now rewrite Rplus_0_r in H.
    + pose proof (derivable_pt_lim_plus _ _ _ _ _
                    (unused_derivative v a x t Ua) IHb) as H.
      now rewrite Rplus_0_l in H.
    + pose proof (derivable_pt_lim_plus _ _ _ _ _
                    (unused_derivative v a x t Ua)
                    (unused_derivative v b x t Ub)) as H.
      now rewrite Rplus_0_r in H.
  - apply derivable_pt_lim_ext
      with (f := (slice v a x t - slice v b x t)%F);
      [destruct v; reflexivity|].
    cbn [D]. destruct (uses v a) eqn:Ua, (uses v b) eqn:Ub.
    + simpl. now apply derivable_pt_lim_minus.
    + pose proof (derivable_pt_lim_minus _ _ _ _ _ IHa
                    (unused_derivative v b x t Ub)) as H.
      now rewrite Rminus_0_r in H.
    + pose proof (derivable_pt_lim_minus _ _ _ _ _
                    (unused_derivative v a x t Ua) IHb) as H.
      now rewrite Rminus_0_l in H.
    + pose proof (derivable_pt_lim_minus _ _ _ _ _
                    (unused_derivative v a x t Ua)
                    (unused_derivative v b x t Ub)) as H.
      now rewrite Rminus_0_r in H.
  - apply derivable_pt_lim_ext
      with (f := (slice v a x t * slice v b x t)%F);
      [destruct v; reflexivity|].
    cbn [D]. destruct (uses v a) eqn:Ua, (uses v b) eqn:Ub.
    + pose proof (derivable_pt_lim_mult _ _ _ _ _ IHa IHb) as H.
      rewrite !slice_at in H. exact H.
    + pose proof (derivable_pt_lim_mult _ _ _ _ _ IHa
                    (unused_derivative v b x t Ub)) as H.
      rewrite !slice_at, Rmult_0_r, Rplus_0_r in H. exact H.
    + pose proof (derivable_pt_lim_mult _ _ _ _ _
                    (unused_derivative v a x t Ua) IHb) as H.
      rewrite !slice_at, Rmult_0_l, Rplus_0_l in H. exact H.
    + pose proof (derivable_pt_lim_mult _ _ _ _ _
                    (unused_derivative v a x t Ua)
                    (unused_derivative v b x t Ub)) as H.
      rewrite !slice_at, Rmult_0_l, Rmult_0_r, Rplus_0_r in H. exact H.
  - apply derivable_pt_lim_ext with (f := (- slice v a x t)%F);
      [destruct v; reflexivity|].
    simpl. now apply derivable_pt_lim_opp.
  - apply derivable_pt_lim_ext with (f := comp sin (slice v a x t));
      [destruct v; reflexivity|].
    simpl. rewrite <- (slice_at v a x t).
    apply derivable_pt_lim_comp; [exact IHa | apply derivable_pt_lim_sin].
  - apply derivable_pt_lim_ext with (f := comp cos (slice v a x t));
      [destruct v; reflexivity|].
    simpl. rewrite <- (slice_at v a x t).
    apply derivable_pt_lim_comp; [exact IHa | apply derivable_pt_lim_cos].
  - apply derivable_pt_lim_ext with (f := comp tanh (slice v a x t));
      [destruct v; reflexivity|].
    simpl. rewrite <- (slice_at v a x t).
    apply derivable_pt_lim_comp; [exact IHa | apply derivable_pt_lim_tanh].
Qed.

End Derivative.

(** ** Sums and means (exact arithmetic) *)

Section ExactMeans.
Local Open Scope R_scope.

Lemma fold_left_Rplus (l : list R) (a : R) :
  fold_left Rplus l a = a + fold_left Rplus l 0.
Proof.
  revert a; induction l as [|v l IH]; intros a; simpl; [lra|].
  rewrite (IH (a + v)), (IH (0 + v)); lra.
Qed.

Lemma sum_cons (v : R) (l : list R) : torch.sum (v :: l) = v + torch.sum l.
Proof.
  unfold torch.sum; simpl. rewrite fold_left_Rplus.
  change (@zero R exact) with 0. lra.
Qed.

Lemma sum_lower_bound (k : R) (l : list R) :
  Forall (fun v => k <= v) l -> k * INR (length l) <= torch.sum l.
Proof.
  induction 1 as [|v l Hv _ IH].
  - unfold torch.sum; simpl. change (@zero R exact) with 0. lra.
  - rewrite sum_cons. cbn [length]. rewrite S_INR. lra.
Qed.

Lemma sum_constant (k : R) (l : list R) :
  Forall (fun v => v = k) l -> torch.sum l = k * INR (length l).
Proof.
  induction 1 as [|v l Hv _ IH].
  - unfold torch.sum; simpl. change (@zero R exact) with 0. lra.
  - rewrite sum_cons, IH, Hv. cbn [length]. rewrite S_INR. lra.
Qed.

Lemma mean_exact (l : list R) : torch.mean l = torch.sum l / INR (length l).
Proof. unfold torch.mean; simpl. now rewrite <- INR_IZR_INZ. Qed.

Lemma length_pos (l : list R) : l <> [] -> 0 < INR (length l).
Proof.
  intros H. destruct l as [|v l]; [congruence|].
  apply lt_0_INR; simpl; lia.
Qed.

Lemma mean_lower_bound (k : R) (l : list R) :
  l <> [] -> Forall (fun v => k <= v) l -> k <= torch.mean l.
Proof.
  intros Hne Hall. rewrite mean_exact.
  pose proof (length_pos l Hne) as Hn.
  pose proof (sum_lower_bound k l Hall) as Hs.
  apply Rmult_le_reg_r with (r := INR (length l)); [exact Hn|].
  unfold Rdiv. rewrite Rmult_assoc, Rinv_l by lra. lra.
Qed.

Lemma mean_constant (k : R) (l : list R) :
  l <> [] -> Forall (fun v => v = k) l -> torch.mean l = k.
Proof.
  intros Hne Hall. rewrite mean_exact, (sum_constant k l Hall).
  pose proof (length_pos l Hne). field. lra.
Qed.

Lemma mean_zeros (l : list R) : Forall (fun v => v = 0) l -> torch.mean l = 0.
Proof.
  intros Hall. rewrite mean_exact, (sum_constant 0 l Hall).
  unfold Rdiv. ring.
Qed.

Lemma Forall_map2 {A C : Type} (P : R -> Prop) (f : A -> C -> R)
    (l : list A) (m : list C) :
  (forall a b, P (f a b)) -> Forall P (map2 f l m).
Proof.
  intros H. revert m; induction l as [|a l IH]; intros [|b m]; simpl;
    constructor; auto.
Qed.

Lemma Forall_map_all {A : Type} (P : R -> Prop) (f : A -> R) (l : list A) :
  (forall a, P (f a)) -> Forall P (map f l).
Proof. intros H. induction l; simpl; constructor; auto. Qed.

Lemma map2_nonempty {A C E : Type} (f : A -> C -> E) (l : list A) (m : list C) :
  length l = length m -> l <> [] -> map2 f l m <> [].
Proof. destruct l, m; simpl; intros; congruence. Qed.

Lemma map_nonempty {A E : Type} (f : A -> E) (l : list A) :
  l <> [] -> map f l <> [].
Proof. destruct l; simpl; intros; congruence. Qed.

Lemma sq_nonneg (v : R) : 0 <= sq v.
Proof. unfold sq; simpl. nra. Qed.

Lemma lit_1e_6_exact : @lit_1e_6 R exact = 1 / 1000000.
Proof. reflexivity. Qed.

End ExactMeans.

Section ExactLoss.
Local Open Scope R_scope.
Variable c : R.

Lemma exact_pde_residual (a b : R) : pde_residual c (exact_solution c) a b = 0.
Proof.
  unfold pde_residual, u_tt, u_xx, exact_solution, np.pi, one, zero.
  cbn -[sin cos PI]. ring.
Qed.

Lemma exact_displacement_residual (a : R) :
  displacement_residual (exact_solution c) a = 0.
Proof.
  unfold displacement_residual, u, exact_solution, np.pi, zero.
  cbn -[sin cos PI]. rewrite Rmult_0_r, cos_0. ring.
Qed.

Lemma exact_velocity_residual (a : R) :
  velocity_residual (exact_solution c) a = 0.
Proof.
  unfold velocity_residual, u_t, exact_solution, np.pi, one, zero.
  cbn -[sin cos PI]. rewrite (Rmult_0_r (c * PI)), sin_0. ring.
Qed.

Lemma exact_boundary_values (b : R) :
  u (exact_solution c) 0 b = 0 /\ u (exact_solution c) 1 b = 0.
Proof.
  unfold u, exact_solution, np.pi. cbn -[sin cos PI].
  rewrite Rmult_0_r, Rmult_1_r, sin_0, sin_PI. split; ring.
Qed.

End ExactLoss.

(** ** The composite loss *)

(** C1. For an approximator that can be differentiated twice in both
    inputs (any [PINN] can, see [forward_twice_differentiable]) and a batch
    of two columns of the same length, the evaluator returns the plain sum
    of four terms and nothing else: the mean squared PDE residual, the mean
    squared initial-displacement residual, the mean of the squared initial
    velocity plus 1e-6, and the two mean squared boundary values.  No term
    carries a weight. *)
Theorem composite_loss_is_unweighted_sum
    {F : Type} {B : Backend F} (c : F) (m : approximator F) (x t : tensor F) :
  twice_differentiable m = true ->
  length (data x) = length (data t) ->
  wave_pinn_terms c m (set_requires_grad x) (set_requires_grad t) =
    Ok {| physics_loss := spec_physics_loss c m (data x) (data t);
          initial_loss := spec_initial_loss m (data x);
          velocity_loss := spec_velocity_loss m (data x);
          boundary_loss := spec_boundary_loss m (data t) |} /\
  returned (wave_pinn_loss c m x t) =
    Ok (spec_physics_loss c m (data x) (data t) + spec_initial_loss m (data x)
        + spec_velocity_loss m (data x) + spec_boundary_loss m (data t))%num.
Proof.
  intros Hm Hlen. split.
  - now apply wave_pinn_terms_spec.
  - unfold wave_pinn_loss; cbn [returned].
    rewrite wave_pinn_terms_spec by assumption. reflexivity.
Qed.

Lemma composite_loss_is_unweighted_sum_witness :
  twice_differentiable (exact_solution 1%R) = true /\
  length (data sample_x) = length (data sample_t) /\
  returned (wave_pinn_loss 1%R (exact_solution 1%R) sample_x sample_t) =
    Ok (spec_physics_loss 1%R (exact_solution 1%R) (data sample_x) (data sample_t)
        + spec_initial_loss (exact_solution 1%R) (data sample_x)
        + spec_velocity_loss (exact_solution 1%R) (data sample_x)
        + spec_boundary_loss (exact_solution 1%R) (data sample_t))%num.
Proof.
  split; [reflexivity|]. split; [reflexivity|].
  apply (composite_loss_is_unweighted_sum 1%R (exact_solution 1%R) sample_x sample_t);
    reflexivity.
Defined.

Section ExactLossTheorems.
Local Open Scope R_scope.

Lemma exact_terms_nonneg (c : R) (m : approximator R) (xs ts : list R) :
  length xs = length ts -> xs <> [] ->
  0 <= spec_physics_loss c m xs ts /\
  0 <= spec_initial_loss m xs /\
  1 / 1000000 <= spec_velocity_loss m xs /\
  0 <= spec_boundary_loss m ts.
Proof.
  intros Hlen Hne.
  assert (Hts : ts <> []) by (destruct xs, ts; simpl in *; congruence).
  repeat split.
  - apply mean_lower_bound; [now apply map2_nonempty|].
    apply Forall_map2; intros; apply sq_nonneg.
  - apply mean_lower_bound; [now apply map_nonempty|].
    apply Forall_map_all; intros; apply sq_nonneg.
  - apply mean_lower_bound; [now apply map_nonempty|].
    apply Forall_map_all; intros a.
    change (1 / 1000000 <= sq (velocity_residual m a) + 1 / 1000000).
    pose proof (sq_nonneg (velocity_residual m a)). lra.
  - unfold spec_boundary_loss.
    assert (H0 : 0 <= torch.mean (map (fun b => sq (u m zero b)) ts)).
    { apply mean_lower_bound; [now apply map_nonempty|].
      apply Forall_map_all; intros; apply sq_nonneg. }
    assert (H1 : 0 <= torch.mean (map (fun b => sq (u m one b)) ts)).
    { apply mean_lower_bound; [now apply map_nonempty|].
      apply Forall_map_all; intros; apply sq_nonneg. }
    change (0 <= torch.mean (map (fun b => sq (u m zero b)) ts)
                 + torch.mean (map (fun b => sq (u m one b)) ts)).
    lra.
Qed.

(** C6. On every non-empty batch the velocity term is at least the
    additive constant 1e-6, so it is never zero, and the composite loss is
    at least 1e-6, hence strictly positive, whatever the approximator (as
    long as the evaluator can differentiate it, as it can any [PINN]). *)
Theorem velocity_floor_makes_loss_positive
    (c : R) (m : approximator R) (x t : tensor R) :
  twice_differentiable m = true ->
  length (data x) = length (data t) -> data x <> [] ->
  exists l : loss_terms R,
    wave_pinn_terms c m (set_requires_grad x) (set_requires_grad t) = Ok l /\
    returned (wave_pinn_loss c m x t) = Ok (total_loss l) /\
    1 / 1000000 <= velocity_loss l /\
    velocity_loss l <> 0 /\
    1 / 1000000 <= total_loss l /\
    0 < total_loss l.
Proof.
  intros Hm Hlen Hne.
  destruct (exact_terms_nonneg c m (data x) (data t) Hlen Hne)
    as (Hp & Hi & Hv & Hb).
  eexists; split; [now apply wave_pinn_terms_spec|].
  split.
  - unfold wave_pinn_loss; cbn [returned].
    rewrite wave_pinn_terms_spec by assumption. reflexivity.
  - unfold total_loss; cbn [physics_loss initial_loss velocity_loss boundary_loss].
    change (@fadd R exact) with Rplus. repeat split; lra.
Qed.

Lemma velocity_floor_makes_loss_positive_witness :
  twice_differentiable (forward (bias_pinn hidden half)) = true /\
  length (data sample_x) = length (data sample_t) /\ data sample_x <> [] /\
  exists l : loss_terms R,
    wave_pinn_terms 1 (forward (bias_pinn hidden half))
      (set_requires_grad sample_x) (set_requires_grad sample_t) = Ok l /\
    returned (wave_pinn_loss 1 (forward (bias_pinn hidden half)) sample_x sample_t)
      = Ok (total_loss l) /\
    1 / 1000000 <= velocity_loss l /\
    velocity_loss l <> 0 /\
    1 / 1000000 <= total_loss l /\
    0 < total_loss l.
Proof.
  assert (Hm : twice_differentiable (forward (bias_pinn hidden half)) = true)
    by (apply (forward_twice_differentiable hidden); reflexivity).
  split; [exact Hm|]. split; [reflexivity|]. split; [discriminate|].
  apply (velocity_floor_makes_loss_positive 1 (forward (bias_pinn hidden half)) sample_x sample_t).
  - exact Hm.
  - reflexivity.
  - discriminate.
Defined.

End ExactLossTheorems.

(** ** The training loop *)

Section LoopFacts.
Context {F : Type} {B : Backend F}.
Variable c : F.
Context {O : Type}.
Variable param_grad : PINN F -> tensor F -> tensor F -> list F.
Variable optimizer_step : O -> PINN F -> list F -> PINN F * O.
Variable h : nat.

Local Abbreviation state := (training_state F O).
Local Abbreviation body := (epoch_body c param_grad optimizer_step).
Local Abbreviation loop := (for_epochs c param_grad optimizer_step).

(** A pass whose loss is NaN. *)
Lemma body_nan (epoch : nat) (st : state) (loss : F) :
  fst (evaluate_loss c (zero_grad st)) = Ok loss ->
  torch.isnan loss = true ->
  exists st',
    body epoch st = (Break, st') /\
    model st' = model st /\ optimizer st' = optimizer st /\ grads st' = None /\
    x_train st' = flagged_x st /\ t_train st' = flagged_t st /\
    trace st' = trace st ++ [zero_grad_called; loss_evaluated (Ok loss);
                             printed (NaN_encountered epoch)].
Proof.
  intros Hloss Hnan. unfold epoch_body.
  destruct (evaluate_loss c (zero_grad st)) as [r st1] eqn:E.
  cbn [fst] in Hloss; subst r. rewrite Hnan.
  eexists; split; [reflexivity|].
  assert (Hst1 : st1 = snd (evaluate_loss c (zero_grad st))) by now rewrite E.
  assert (Hr : fst (evaluate_loss c (zero_grad st)) = Ok loss) by now rewrite E.
  subst st1. unfold evaluate_loss in *; cbn in Hr |- *. rewrite Hr.
  repeat split. now rewrite <- !app_assoc.
Qed.

(** A pass whose loss is not NaN. *)
Lemma body_not_nan (epoch : nat) (st : state) (loss : F) :
  fst (evaluate_loss c (zero_grad st)) = Ok loss ->
  torch.isnan loss = false ->
  exists st',
    body epoch st = (Continue, st') /\
    model st' = fst (optimizer_step (optimizer st) (model st) (clipped_grad param_grad st)) /\
    optimizer st' = snd (optimizer_step (optimizer st) (model st) (clipped_grad param_grad st)) /\
    grads st' = Some (clipped_grad param_grad st) /\
    x_train st' = flagged_x st /\ t_train st' = flagged_t st /\
    trace st' = trace st ++ [zero_grad_called; loss_evaluated (Ok loss);
                             backward_called; clip_grad_norm_called; step_called]
                         ++ progress_line epoch loss.
Proof.
  intros Hloss Hnan. unfold epoch_body, progress_line.
  generalize (Nat.eqb (epoch mod 500) 0); intros b.
  destruct (evaluate_loss c (zero_grad st)) as [r st1] eqn:E.
  cbn [fst] in Hloss; subst r. rewrite Hnan.
  eexists; split; [reflexivity|].
  assert (Hst1 : st1 = snd (evaluate_loss c (zero_grad st))) by now rewrite E.
  assert (Hr : fst (evaluate_loss c (zero_grad st)) = Ok loss) by now rewrite E.
  subst st1. clear E. unfold evaluate_loss in *; cbn in Hr |- *. rewrite Hr.
  unfold clipped_grad, flagged_x, flagged_t.
  destruct (optimizer_step _ _ _) as [m' o'] eqn:Eo.
  destruct b; cbn; rewrite ?Eo; cbn; repeat split; now rewrite <- ?app_assoc.
Qed.

Lemma loss_returned (m : approximator F) (x t : tensor F) :
  twice_differentiable m = true ->
  length (data x) = length (data t) ->
  returned (wave_pinn_loss c m x t) = Ok (spec_composite_loss c m (data x) (data t)).
Proof.
  intros Hm Hlen. unfold wave_pinn_loss; cbn [returned].
  rewrite wave_pinn_terms_spec by assumption. reflexivity.
Qed.

Lemma evaluate_loss_ok (st : state) :
  well_shaped h st -> exists loss, fst (evaluate_loss c (zero_grad st)) = Ok loss.
Proof.
  intros [Hlen Hm]. eexists. unfold evaluate_loss; cbn [fst].
  apply loss_returned; [|exact Hlen].
  now apply (forward_twice_differentiable h).
Qed.

Lemma iterations_app (tr1 tr2 : list (event F)) :
  iterations (tr1 ++ tr2) = iterations tr1 + iterations tr2.
Proof. unfold iterations. now rewrite filter_app, length_app. Qed.

Lemma iterations_progress_line (epoch : nat) (loss : F) :
  iterations (progress_line epoch loss) = 0.
Proof. unfold progress_line. now destruct (Nat.eqb _ _). Qed.

(** One pass from a well-shaped state either goes through or stops on a
    NaN loss; it never raises, and it counts as one iteration. *)
Lemma body_cases (epoch : nat) (st : state) :
  keeps_shape h optimizer_step ->
  well_shaped h st ->
  exists loss st',
    fst (evaluate_loss c (zero_grad st)) = Ok loss /\
    well_shaped h st' /\
    iterations (trace st') = S (iterations (trace st)) /\
    ((torch.isnan loss = false /\ body epoch st = (Continue, st')) \/
     (torch.isnan loss = true /\ body epoch st = (Break, st') /\
      trace st' = trace st ++ [zero_grad_called; loss_evaluated (Ok loss);
                               printed (NaN_encountered epoch)])).
Proof.
  intros Hstep Hws. destruct (evaluate_loss_ok st Hws) as [loss Hloss].
  destruct Hws as [Hlen Hm].
  exists loss. destruct (torch.isnan loss) eqn:Hnan.
  - destruct (body_nan epoch st loss Hloss Hnan)
      as (st' & Hb & Hmod & _ & _ & Hx & Ht & Htr).
    exists st'. split; [exact Hloss|]. split; [|split].
    + split; [now rewrite Hx, Ht | now rewrite Hmod].
    + rewrite Htr, iterations_app. cbn. lia.
    + right. auto.
  - destruct (body_not_nan epoch st loss Hloss Hnan)
      as (st' & Hb & Hmod & _ & _ & Hx & Ht & Htr).
    exists st'. split; [exact Hloss|]. split; [|split].
    + split; [now rewrite Hx, Ht | rewrite Hmod; now apply Hstep].
    + rewrite Htr, !iterations_app, iterations_progress_line. cbn. lia.
    + left. auto.
Qed.

Lemma for_epochs_app (l1 l2 : list nat) (st st1 : state) :
  loop l1 st = (range_exhausted, st1) -> loop (l1 ++ l2) st = loop l2 st1.
Proof.
  revert st; induction l1 as [|e l1 IH]; intros st H; simpl in *.
  - now inversion H.
  - destruct (body e st) as [[| |] st2]; try discriminate. now apply IH.
Qed.

(** The [for] statement over [range(a, a + n)] from a well-shaped state. *)
Lemma for_epochs_seq (n a : nat) (st : state) :
  keeps_shape h optimizer_step ->
  well_shaped h st ->
  exists st',
    (loop (seq a n) st = (range_exhausted, st') /\
     iterations (trace st') = iterations (trace st) + n) \/
    (exists k loss,
       loop (seq a n) st = (stopped_at k, st') /\ a <= k < a + n /\
       iterations (trace st') = iterations (trace st) + S (k - a) /\
       torch.isnan loss = true /\
       exists tr, trace st' = tr ++ [zero_grad_called; loss_evaluated (Ok loss);
                                     printed (NaN_encountered k)]).
Proof.
  intros Hstep.
  revert a st; induction n as [|n IH]; intros a st Hws; simpl.
  - exists st. left. split; [reflexivity | lia].
  - destruct (body_cases a st Hstep Hws) as (loss & st1 & _ & Hws1 & Hit & [[_ Hb]|(Hnan & Hb & Htr)]).
    + rewrite Hb. destruct (IH (S a) st1 Hws1) as [st' [[Hl Hi]|(k & l' & Hl & Hk & Hi & Hn & Ht)]].
      * exists st'. left. split; [exact Hl | lia].
      * exists st'. right. exists k, l'.
        split; [exact Hl|]. split; [lia|].
        split; [rewrite Hi, Hit; replace (k - a) with (S (k - S a)) by lia; lia|].
        split; [exact Hn | exact Ht].
    + rewrite Hb. exists st1. right. exists a, loss.
      split; [reflexivity|]. split; [lia|].
      split; [rewrite Hit, Nat.sub_diag; lia|].
      split; [exact Hnan|]. eexists; exact Htr.
Qed.

End LoopFacts.

(** ** Non-finite values in binary32 *)

Lemma add_not_finite_l (a b : float32) :
  is_finite a = false -> is_finite (SFadd prec emax a b) = false.
Proof.
  destruct a as [sa|sa| |sa ma ea], b as [sb|sb| |sb mb eb];
    try discriminate; try reflexivity.
  destruct sa, sb; reflexivity.
Qed.

Lemma add_not_finite_r (a b : float32) :
  is_finite b = false -> is_finite (SFadd prec emax a b) = false.
Proof.
  destruct a as [sa|sa| |sa ma ea], b as [sb|sb| |sb mb eb];
    try discriminate; try reflexivity.
  destruct sa, sb; reflexivity.
Qed.

Lemma div_not_finite_l (a b : float32) :
  is_finite a = false -> is_finite (SFdiv prec emax a b) = false.
Proof.
  destruct a as [sa|sa| |sa ma ea], b as [sb|sb| |sb mb eb];
    try discriminate; reflexivity.
Qed.

Lemma div_by_zero_not_finite (a : float32) (s : bool) :
  is_finite (SFdiv prec emax a (S754_zero s)) = false.
Proof. destruct a; reflexivity. Qed.

Lemma mul_not_finite_l (a b : float32) :
  is_finite a = false -> is_finite (SFmul prec emax a b) = false.
Proof.
  destruct a as [sa|sa| |sa ma ea], b as [sb|sb| |sb mb eb];
    try discriminate; reflexivity.
Qed.

Lemma abs_not_finite (a : float32) :
  is_finite a = false -> is_finite (SFabs a) = false.
Proof. destruct a; try discriminate; reflexivity. Qed.

Lemma fold_add_not_finite (l : list float32) (acc : float32) :
  is_finite acc = false \/ Exists (fun v => is_finite v = false) l ->
  is_finite (fold_left (SFadd prec emax) l acc) = false.
Proof.
  revert acc; induction l as [|v l IH]; intros acc [H|H]; simpl.
  - exact H.
  - inversion H.
  - apply IH. left. now apply add_not_finite_l.
  - apply IH. inversion H; subst.
    + left. now apply add_not_finite_r.
    + right. assumption.
Qed.

Lemma Exists_map2 {A C E : Type} (P : E -> Prop) (f : A -> C -> E)
    (l : list A) (m : list C) (i : nat) (a : A) (b : C) :
  nth_error l i = Some a -> nth_error m i = Some b -> P (f a b) ->
  Exists P (map2 f l m).
Proof.
  revert m i; induction l as [|a' l IH]; intros [|b' m] [|i] Ha Hb HP;
    simpl in *; try discriminate.
  - inversion Ha; inversion Hb; subst. now constructor.
  - apply Exists_cons_tl. eapply IH; eauto.
Qed.

(** ** The accuracy report *)

Section Binary32.
Variable L : Libm.
#[local] Hint Extern 0 (Backend float32) => exact (binary32 L) : typeclass_instances.

(** C9. [calculate_accuracy] divides by the reference solution without
    looking at it: whenever the reference solution is exactly zero (of
    either sign) at some point of the test batch, the returned relative
    error is infinite or NaN, whatever the model predicts and whatever the
    math library computes. *)
Theorem relative_error_not_finite_at_zero_reference
    (c : float32) (m : approximator float32) (x t : tensor float32)
    (i : nat) (xi ti : float32) (s : bool) :
  length (data x) = length (data t) ->
  nth_error (data x) i = Some xi ->
  nth_error (data t) i = Some ti ->
  u (exact_solution c) xi ti = S754_zero s ->
  exists mse relative_error : float32,
    calculate_accuracy c m x t = Ok (mse, relative_error) /\
    is_finite relative_error = false.
Proof.
  intros Hlen Hx Ht Hzero. unfold calculate_accuracy.
  rewrite !call_same_length by exact Hlen. cbn [bind].
  eexists; eexists; split; [reflexivity|].
  apply mul_not_finite_l. unfold torch.mean. apply div_not_finite_l.
  unfold torch.sum. apply fold_add_not_finite. right.
  unfold torch.abs, tdiv, tsub, values; cbn [fn arg_x arg_t].
  rewrite !map2_map2, map_map2.
  apply Exists_map2 with (i := i) (a := xi) (b := ti); [exact Hx | exact Ht |].
  apply abs_not_finite. unfold u in Hzero. rewrite Hzero.
  apply div_by_zero_not_finite.
Qed.

End Binary32.

Lemma relative_error_not_finite_at_zero_reference_witness :
  u (exact_solution one) zero f32_half = S754_zero false /\
  exists mse relative_error : float32,
    calculate_accuracy one (forward (bias_pinn 1 one)) grid_x grid_t
      = Ok (mse, relative_error) /\
    is_finite relative_error = false.
Proof.
  split; [reflexivity|].
  apply (relative_error_not_finite_at_zero_reference poly_libm one
           (forward (bias_pinn 1 one)) grid_x grid_t 0 zero f32_half false);
    reflexivity.
Defined.

(** ** Halting on a NaN loss *)

Section LoopTheorems.
Context {F : Type} {B : Backend F}.
Variable c : F.
Context {O : Type}.
Variable param_grad : PINN F -> tensor F -> tensor F -> list F.
Variable optimizer_step : O -> PINN F -> list F -> PINN F * O.

Local Abbreviation state := (training_state F O).
Local Abbreviation run := (training_loop c param_grad optimizer_step).

(** C2, as the code has it.  If the first [k] passes go through and the
    loss computed in pass [k] is NaN, the loop stops in pass [k]: it prints
    the line naming epoch [k] and runs neither [backward] nor
    [clip_grad_norm_] nor [step], so the parameters and the optimizer state
    are exactly those the pass started with. *)
Theorem nan_loss_halts_training (n k : nat) (st st_k : state) (loss : F) :
  k < n ->
  run k st = (range_exhausted, st_k) ->
  fst (evaluate_loss c (zero_grad st_k)) = Ok loss ->
  torch.isnan loss = true ->
  exists st',
    run n st = (stopped_at k, st') /\
    model st' = model st_k /\
    optimizer st' = optimizer st_k /\
    grads st' = None /\
    trace st' = trace st_k ++ [zero_grad_called; loss_evaluated (Ok loss);
                               printed (NaN_encountered k)].
Proof.
  intros Hk Hrun Hloss Hnan.
  destruct (body_nan c param_grad optimizer_step k st_k loss Hloss Hnan)
    as (st' & Hb & Hm & Ho & Hg & _ & _ & Htr).
  exists st'. split; [|now repeat split].
  unfold training_loop in *.
  replace n with (k + S (n - S k)) by lia.
  rewrite seq_app, (for_epochs_app _ _ _ _ _ _ _ Hrun). simpl. now rewrite Hb.
Qed.

(** C8. Started with a [PINN] (of any positive hidden width [h]) and a
    batch of two columns of the same length, with an optimizer that keeps
    the shapes of the parameters, the loop always ends, after at most [n]
    passes of its body, and in one of two ways only: the range is exhausted
    after exactly [n] passes, none of which saw a NaN loss stop it, or some
    pass [k < n] computed a NaN loss and stopped there, after [k + 1]
    passes.  Nothing else ends it: no other test on the loss, and no
    exception. *)
Theorem training_loop_exits (h n : nat) (st : state) :
  keeps_shape h optimizer_step ->
  PINN_shaped h (model st) = true ->
  length (data (x_train st)) = length (data (t_train st)) ->
  exists (how : loop_exit) (st' : state),
    run n st = (how, st') /\
    iterations (trace st') <= iterations (trace st) + n /\
    ((how = range_exhausted /\
      iterations (trace st') = iterations (trace st) + n) \/
     (exists (k : nat) (loss : F) (tr : list (event F)),
        how = stopped_at k /\ k < n /\
        iterations (trace st') = iterations (trace st) + S k /\
        torch.isnan loss = true /\
        trace st' = tr ++ [zero_grad_called; loss_evaluated (Ok loss);
                           printed (NaN_encountered k)])).
Proof.
  intros Hstep Hm Hlen.
  destruct (for_epochs_seq c param_grad optimizer_step h n 0 st Hstep
              (conj Hlen Hm))
    as [st' [[Hl Hi]|(k & loss & Hl & Hk & Hi & Hn & tr & Ht)]].
  - exists range_exhausted, st'. split; [exact Hl|]. split; [lia|].
    left. split; [reflexivity | exact Hi].
  - rewrite Nat.sub_0_r in Hi.
    exists (stopped_at k), st'. split; [exact Hl|]. split; [lia|].
    right. exists k, loss, tr. repeat split; try assumption; lia.
Qed.

End LoopTheorems.

Section Binary32Loop.
Variable L : Libm.
#[local] Hint Extern 0 (Backend float32) => exact (binary32 L) : typeclass_instances.
Variable c : float32.
Context {O : Type}.
Variable param_grad : PINN float32 -> tensor float32 -> tensor float32 -> list float32.
Variable optimizer_step : O -> PINN float32 -> list float32 -> PINN float32 * O.

(** C10. The guard is [torch.isnan], and an infinity is not a NaN: when the
    loss is plus or minus infinity the pass goes on exactly as for a finite
    loss, through [backward], [clip_grad_norm_] and [step], and the
    optimizer is handed the clipped gradient. *)
Theorem infinite_loss_passes_the_guard
    (epoch : nat) (st : training_state float32 O) (s : bool) :
  fst (evaluate_loss c (zero_grad st)) = Ok (S754_infinity s) ->
  torch.isnan (S754_infinity s) = false /\
  exists st',
    epoch_body c param_grad optimizer_step epoch st = (Continue, st') /\
    model st' = fst (optimizer_step (optimizer st) (model st)
                       (clipped_grad param_grad st)) /\
    optimizer st' = snd (optimizer_step (optimizer st) (model st)
                           (clipped_grad param_grad st)) /\
    trace st' = trace st ++ [zero_grad_called; loss_evaluated (Ok (S754_infinity s));
                             backward_called; clip_grad_norm_called; step_called]
                         ++ progress_line epoch (S754_infinity s).
Proof.
  intros Hloss. split; [reflexivity|].
  destruct (body_not_nan c param_grad optimizer_step epoch st _ Hloss eq_refl)
    as (st' & Hb & Hm & Ho & _ & _ & _ & Htr).
  exists st'. repeat split; assumption.
Qed.

End Binary32Loop.

Lemma infinite_loss_passes_the_guard_witness :
  fst (evaluate_loss one (zero_grad (start 1 two_pow_100))) = Ok (S754_infinity false) /\
  exists st',
    epoch_body one no_gradient counting_step 0 (start 1 two_pow_100) = (Continue, st') /\
    trace st' = [zero_grad_called; loss_evaluated (Ok (S754_infinity false));
                 backward_called; clip_grad_norm_called; step_called;
                 printed (Epoch_loss 0 (S754_infinity false))].
Proof.
  split; [vm_compute; reflexivity|].
  destruct (infinite_loss_passes_the_guard poly_libm one no_gradient counting_step
              0 (start 1 two_pow_100) false)
    as (_ & st' & Hb & _ & _ & Htr); [vm_compute; reflexivity|].
  exists st'. split; [exact Hb | exact Htr].
Defined.

Lemma nan_loss_halts_training_witness :
  exists st',
    training_loop one no_gradient counting_step num_epochs (start 1 S754_nan)
      = (stopped_at 0, st') /\
    model st' = model (start 1 S754_nan) /\
    optimizer st' = optimizer (start 1 S754_nan) /\
    grads st' = None /\
    trace st' = [zero_grad_called; loss_evaluated (Ok S754_nan);
                 printed (NaN_encountered 0)].
Proof.
  apply (nan_loss_halts_training one no_gradient counting_step num_epochs 0
           (start 1 S754_nan) (start 1 S754_nan) S754_nan).
  - unfold num_epochs; lia.
  - reflexivity.
  - vm_compute; reflexivity.
  - reflexivity.
Defined.

Lemma training_loop_exits_witness :
  keeps_shape hidden (@counting_step float32) /\
  PINN_shaped hidden (model (start hidden two_pow_100)) = true /\
  length (data (x_train (start hidden two_pow_100)))
    = length (data (t_train (start hidden two_pow_100))) /\
  exists (how : loop_exit) (st' : training_state float32 nat),
    training_loop one no_gradient counting_step num_epochs (start hidden two_pow_100)
      = (how, st') /\
    iterations (trace st') <= iterations (trace (start hidden two_pow_100)) + num_epochs /\
    ((how = range_exhausted /\
      iterations (trace st')
        = iterations (trace (start hidden two_pow_100)) + num_epochs) \/
     (exists (k : nat) (loss : float32) (tr : list (event float32)),
        how = stopped_at k /\ k < num_epochs /\
        iterations (trace st') = iterations (trace (start hidden two_pow_100)) + S k /\
        torch.isnan loss = true /\
        trace st' = tr ++ [zero_grad_called; loss_evaluated (Ok loss);
                           printed (NaN_encountered k)])).
Proof.
  split; [intros o m g H; exact H|]. split; [reflexivity|].
  split; [reflexivity|].
  apply (training_loop_exits one no_gradient counting_step hidden num_epochs
           (start hidden two_pow_100)).
  - intros o m g H; exact H.
  - reflexivity.
  - reflexivity.
Defined.

(** C2, as the claim words it, fails: a loss of plus infinity is not a
    finite number, yet the loop does not stop.  With the output bias at
    2^100 (and every weight zero, so that the hidden width does not matter
    and is taken to be 1) the squares overflow and the loss is +inf; the pass runs
    [backward], [clip_grad_norm_] and [step], prints the progress line and
    the range is exhausted. *)
Lemma infinite_loss_does_not_halt :
  returned (wave_pinn_loss one (forward (bias_pinn 1 two_pow_100)) grid_x grid_t)
    = Ok (S754_infinity false) /\
  is_finite (S754_infinity false) = false /\
  fst (training_loop one no_gradient counting_step 1 (start 1 two_pow_100))
    = range_exhausted /\
  trace (snd (training_loop one no_gradient counting_step 1 (start 1 two_pow_100)))
    = [zero_grad_called; loss_evaluated (Ok (S754_infinity false));
       backward_called; clip_grad_norm_called; step_called;
       printed (Epoch_loss 0 (S754_infinity false))] /\
  optimizer (snd (training_loop one no_gradient counting_step 1 (start 1 two_pow_100)))
    = 1%nat.
Proof. vm_compute. repeat split. Qed.

(** ** The exact solution *)

Section ExactSolutionTheorems.
Local Open Scope R_scope.

(** C3. With [exact_solution] in place of the trained approximator every
    residual vanishes identically: the PDE residual at every point, the
    initial displacement and velocity residuals at every [x], and both
    boundary values at every [t].  The derivatives involved are the partial
    derivatives of sin(pi x) cos(c pi t).  So on any non-empty batch the
    physics, initial and boundary terms are 0 and the velocity term is the
    1e-6 floor. *)
Theorem exact_solution_residuals_vanish (c : R) (x t : tensor R) :
  length (data x) = length (data t) -> data x <> [] ->
  (forall a b : R,
     u (exact_solution c) a b = sin (PI * a) * cos (c * PI * b) /\
     derivable_pt_lim (fun s => u (exact_solution c) a s) b (u_t (exact_solution c) a b) /\
     derivable_pt_lim (fun s => u_t (exact_solution c) a s) b (u_tt (exact_solution c) a b) /\
     derivable_pt_lim (fun s => u (exact_solution c) s b) a (u_x (exact_solution c) a b) /\
     derivable_pt_lim (fun s => u_x (exact_solution c) s b) a (u_xx (exact_solution c) a b) /\
     pde_residual c (exact_solution c) a b = 0) /\
  (forall a : R, displacement_residual (exact_solution c) a = 0) /\
  (forall a : R, velocity_residual (exact_solution c) a = 0) /\
  (forall b : R, u (exact_solution c) 0 b = 0 /\ u (exact_solution c) 1 b = 0) /\
  exists l : loss_terms R,
    wave_pinn_terms c (exact_solution c) (set_requires_grad x) (set_requires_grad t)
      = Ok l /\
    physics_loss l = 0 /\ initial_loss l = 0 /\ boundary_loss l = 0 /\
    velocity_loss l = 1 / 1000000.
Proof.
  intros Hlen Hne.
  assert (Hts : data t <> []) by (destruct (data x), (data t); simpl in *; congruence).
  split; [|split; [|split; [|split]]].
  - intros a b. split; [reflexivity|].
    split; [exact (D_partial_derivative T (exact_solution c) a b)|].
    split; [exact (D_partial_derivative T (D T (exact_solution c)) a b)|].
    split; [exact (D_partial_derivative X (exact_solution c) a b)|].
    split; [exact (D_partial_derivative X (D X (exact_solution c)) a b)|].
    apply exact_pde_residual.
  - apply exact_displacement_residual.
  - apply exact_velocity_residual.
  - apply exact_boundary_values.
  - eexists; split; [apply wave_pinn_terms_spec; [reflexivity | exact Hlen]|].
    cbn [physics_loss initial_loss velocity_loss boundary_loss].
    split; [|split; [|split]].
    + apply mean_zeros, Forall_map2. intros a b.
      unfold sq. rewrite exact_pde_residual. simpl; ring.
    + apply mean_zeros, Forall_map_all. intros a.
      unfold sq. rewrite exact_displacement_residual. simpl; ring.
    + unfold spec_boundary_loss.
      rewrite 2 mean_zeros; [simpl; ring | |];
        apply Forall_map_all; intros b; unfold sq;
        destruct (exact_boundary_values c b) as [H0 H1].
      * change (@one R exact) with 1. rewrite H1. simpl; ring.
      * change (@zero R exact) with 0. rewrite H0. simpl; ring.
    + apply mean_constant; [now apply map_nonempty|].
      apply Forall_map_all. intros a.
      unfold sq. rewrite exact_velocity_residual, lit_1e_6_exact. simpl; ring.
Qed.

Lemma exact_solution_residuals_vanish_witness :
  length (data sample_x) = length (data sample_t) /\ data sample_x <> [] /\
  exists l : loss_terms R,
    wave_pinn_terms 1 (exact_solution 1)
      (set_requires_grad sample_x) (set_requires_grad sample_t) = Ok l /\
    physics_loss l = 0 /\ initial_loss l = 0 /\ boundary_loss l = 0 /\
    velocity_loss l = 1 / 1000000.
Proof.
  split; [reflexivity|]. split; [discriminate|].
  apply (exact_solution_residuals_vanish 1 sample_x sample_t);
    [reflexivity | discriminate].
Defined.

End ExactSolutionTheorems.

(** ** Rounding keeps the sign and never yields NaN *)

Lemma shr_1_nonneg (mrs : shr_record) :
  (0 <= shr_m mrs)%Z -> (0 <= shr_m (shr_1 mrs))%Z.
Proof.
  destruct mrs as [m r s]; simpl. destruct m as [|p|p]; [simpl; lia| |lia].
  intros _. destruct p; simpl; lia.
Qed.

Lemma iter_shr_1_nonneg (p : positive) (mrs : shr_record) :
  (0 <= shr_m mrs)%Z -> (0 <= shr_m (iter_pos shr_1 p mrs))%Z.
Proof.
  revert mrs; induction p as [p IH|p IH|]; intros mrs H; simpl.
  - apply IH, IH, shr_1_nonneg, H.
  - apply IH, IH, H.
  - apply shr_1_nonneg, H.
Qed.

Lemma shr_fexp_nonneg (m e : Z) (l : location) :
  (0 <= m)%Z -> (0 <= shr_m (fst (shr_fexp prec emax m e l)))%Z.
Proof.
  intros H. unfold shr_fexp, shr.
  assert (H0 : (0 <= shr_m (shr_record_of_loc m l))%Z).
  { destruct l as [|[| |]]; exact H. }
  destruct (_ - e)%Z; simpl; auto using iter_shr_1_nonneg.
Qed.

Lemma round_nearest_even_nonneg (m : Z) (l : location) :
  (0 <= m)%Z -> (0 <= round_nearest_even m l)%Z.
Proof.
  intros H. destruct l as [|[| |]]; simpl; try lia.
  destruct (Z.even m); lia.
Qed.

Lemma binary_round_aux_signed (s : bool) (m e : Z) (l : location) :
  (0 <= m)%Z -> signed s (binary_round_aux prec emax s m e l).
Proof.
  intros H. unfold binary_round_aux.
  pose proof (shr_fexp_nonneg m e l H) as H1.
  destruct (shr_fexp prec emax m e l) as [mrs' e'] eqn:E1. simpl in H1.
  pose proof (shr_fexp_nonneg _ e' loc_Exact
                (round_nearest_even_nonneg _ (loc_of_shr_record mrs') H1)) as H2.
  destruct (shr_fexp prec emax (round_nearest_even _ _) e' loc_Exact)
    as [mrs'' e''] eqn:E2. simpl in H2.
  destruct (shr_m mrs'') as [|p|p]; [reflexivity| |lia].
  destruct (Z.leb e'' (emax - prec)); reflexivity.
Qed.

Lemma binary_round_signed (s : bool) (m : positive) (e : Z) :
  signed s (binary_round prec emax s m e).
Proof.
  unfold binary_round. destruct (shl_align _ _ _) as [mz ez].
  apply binary_round_aux_signed. lia.
Qed.

Lemma signed_false_not_negative (v : float32) :
  signed false v -> not_negative v = true.
Proof.
  destruct v as [[|]|[|]| |[|] m e]; simpl; intros H;
    try reflexivity; try discriminate; try contradiction.
Qed.

Lemma signed_not_nan (s : bool) (v : float32) : signed s v -> is_nan v = false.
Proof. destruct v; simpl; intros H; try reflexivity; contradiction. Qed.

Lemma not_negative_not_nan (v : float32) : not_negative v = true -> is_nan v = false.
Proof. destruct v; intros H; try discriminate H; reflexivity. Qed.

Lemma not_negative_ge_zero (v : float32) :
  not_negative v = true -> SFleb (S754_zero false) v = true.
Proof.
  destruct v as [[|]|[|]| |[|] m e]; intros H; try discriminate H; reflexivity.
Qed.

Lemma binary_normalize_not_nan (z e : Z) (s : bool) :
  is_nan (binary_normalize prec emax z e s) = false.
Proof.
  destruct z; simpl; [reflexivity| |];
    eapply signed_not_nan, binary_round_signed.
Qed.

Lemma mul_finite_not_nan (a b : float32) :
  is_finite a = true -> is_finite b = true -> is_nan (SFmul prec emax a b) = false.
Proof.
  destruct a as [sa|sa| |sa ma ea], b as [sb|sb| |sb mb eb];
    try discriminate; try reflexivity.
  intros _ _. simpl. eapply signed_not_nan, binary_round_aux_signed. lia.
Qed.

Lemma square_not_negative (w : float32) :
  is_nan w = false -> not_negative (SFmul prec emax w w) = true.
Proof.
  destruct w as [[|]|[|]| |s m e]; try discriminate; try reflexivity.
  intros _. simpl. apply signed_false_not_negative.
  replace (xorb s s) with false by (destruct s; reflexivity).
  apply binary_round_aux_signed. lia.
Qed.

Lemma sub_finite_not_nan (a b : float32) :
  is_finite a = true -> is_nan b = false -> is_nan (SFsub prec emax a b) = false.
Proof.
  destruct a as [sa|sa| |sa ma ea], b as [sb|sb| |sb mb eb];
    try discriminate; try reflexivity.
  - intros _ _. destruct sa, sb; reflexivity.
  - intros _ _. simpl. apply binary_normalize_not_nan.
Qed.

Lemma add_not_negative (a b : float32) :
  not_negative a = true -> not_negative b = true ->
  not_negative (SFadd prec emax a b) = true.
Proof.
  destruct a as [[|]|[|]| |[|] ma ea], b as [[|]|[|]| |[|] mb eb];
    try discriminate; try reflexivity.
  intros _ _. simpl. apply signed_false_not_negative, binary_round_signed.
Qed.

Lemma div_not_negative (a : float32) (m : positive) (e : Z) :
  not_negative a = true ->
  not_negative (SFdiv prec emax a (S754_finite false m e)) = true.
Proof.
  destruct a as [[|]|[|]| |[|] ma ea]; try discriminate; try reflexivity.
  intros _. unfold SFdiv.
  destruct (SFdiv_core_binary prec emax (Z.pos ma) ea (Z.pos m) e)
    as [[mz ez] lz] eqn:E.
  apply signed_false_not_negative. change (xorb false false) with false.
  apply binary_round_aux_signed.
  unfold SFdiv_core_binary in E.
  set (s := (ea - e - _)%Z) in E.
  set (m' := match s with Z.pos _ => Z.shiftl (Z.pos ma) s | 0%Z => Z.pos ma
                     | Z.neg _ => 0%Z end) in E.
  assert (Hm' : (0 <= m')%Z).
  { subst m'. destruct s; try lia. apply Z.shiftl_nonneg. lia. }
  pose proof (Z.div_pos m' (Z.pos m) Hm' ltac:(lia)) as Hq.
  unfold Z.div in Hq. destruct (Z.div_eucl m' (Z.pos m)) as [q r].
  inversion E; subst. exact Hq.
Qed.

Lemma fold_add_not_negative (l : list float32) (acc : float32) :
  not_negative acc = true -> Forall (fun v => not_negative v = true) l ->
  not_negative (fold_left (SFadd prec emax) l acc) = true.
Proof.
  intros Hacc Hl. revert acc Hacc.
  induction Hl as [|v l Hv _ IH]; intros acc Hacc; simpl; [exact Hacc|].
  apply IH. now apply add_not_negative.
Qed.

Lemma map2_length {A C E : Type} (f : A -> C -> E) (l : list A) (m : list C) :
  length l = length m -> length (map2 f l m) = length l.
Proof.
  revert m; induction l as [|a l IH]; intros [|b m] H; simpl in *; try lia.
  now rewrite IH by lia.
Qed.

Lemma Forall_map2_of {A C : Type} (P Q : float32 -> bool) (R : float32 -> Prop)
    (f g h : A -> C -> float32) (l : list A) (m : list C) :
  (forall a b, P (f a b) = true -> Q (g a b) = true -> R (h a b)) ->
  forallb P (map2 f l m) = true -> forallb Q (map2 g l m) = true ->
  Forall R (map2 h l m).
Proof.
  intros H. revert m; induction l as [|a l IH]; intros [|b m] HP HQ; simpl in *;
    try constructor.
  - apply andb_prop in HP, HQ. apply H; tauto.
  - apply andb_prop in HP, HQ. apply IH; tauto.
Qed.

Lemma Forall_map_of {A : Type} (P Q : float32 -> bool) (R : float32 -> Prop)
    (f g h : A -> float32) (l : list A) :
  (forall a, P (f a) = true -> Q (g a) = true -> R (h a)) ->
  forallb P (map f l) = true -> forallb Q (map g l) = true ->
  Forall R (map h l).
Proof.
  intros H. induction l as [|a l IH]; intros HP HQ; simpl in *; constructor.
  - apply andb_prop in HP, HQ. apply H; tauto.
  - apply andb_prop in HP, HQ. apply IH; tauto.
Qed.

Section Binary32Loss.
Variable L : Libm.
#[local] Hint Extern 0 (Backend float32) => exact (binary32 L) : typeclass_instances.
Local Open Scope num_scope.

Lemma mean_not_negative (l : list float32) :
  positive_finite (of_Z (Z.of_nat (length l))) = true ->
  Forall (fun v => not_negative v = true) l ->
  not_negative (torch.mean l) = true.
Proof.
  intros HN Hl. unfold torch.mean.
  destruct (of_Z (Z.of_nat (length l))) as [| | |[|] mN eN]; try discriminate.
  apply div_not_negative. apply fold_add_not_negative; [reflexivity | exact Hl].
Qed.

Lemma sq_finite_not_negative (v : float32) :
  is_finite v = true -> not_negative (sq v) = true.
Proof.
  intros H. apply square_not_negative. destruct v; try discriminate; reflexivity.
Qed.

Lemma lit_1e_6_not_negative : not_negative lit_1e_6 = true.
Proof. reflexivity. Qed.

(** C5, as the code has it, in binary32.  On a batch of two columns of
    the same length whose size is a positive finite binary32 number, if
    every value the evaluator reads off the (twice differentiable)
    approximator is finite (and so are [c * c] and the sines of the initial
    condition), the returned loss is never NaN and never below zero: it is
    a finite number that is not negative, or plus infinity. *)
Theorem binary32_loss_never_negative
    (c : float32) (m : approximator float32) (x t : tensor float32) :
  twice_differentiable m = true ->
  length (data x) = length (data t) ->
  positive_finite (of_Z (Z.of_nat (length (data x)))) = true ->
  is_finite (c * c) = true ->
  forallb is_finite (required_values m (data x) (data t)) = true ->
  forallb is_finite (torch.sin (smul np.pi (data x))) = true ->
  exists loss : float32,
    returned (wave_pinn_loss c m x t) = Ok loss /\
    SFleb zero loss = true.
Proof.
  intros Hm Hlen HN Hc Hfin Hsin.
  unfold required_values in Hfin. rewrite !forallb_app in Hfin.
  repeat (apply andb_prop in Hfin; destruct Hfin as [? Hfin]).
  eexists; split; [now apply loss_returned|].
  apply not_negative_ge_zero. unfold spec_composite_loss.
  assert (HNt : positive_finite (of_Z (Z.of_nat (length (data t)))) = true)
    by now rewrite <- Hlen.
  apply add_not_negative; [apply add_not_negative; [apply add_not_negative|]|].
  - apply mean_not_negative; [now rewrite map2_length|].
    apply Forall_map2_of with (P := is_finite) (Q := is_finite)
                              (f := u_tt m) (g := u_xx m); try assumption.
    intros a b Htt Hxx. apply square_not_negative. unfold pde_residual.
    apply sub_finite_not_nan; [exact Htt|].
    apply mul_finite_not_nan; assumption.
  - apply mean_not_negative; [now rewrite length_map|].
    apply Forall_map_of with (P := is_finite) (Q := is_finite)
                             (f := fun a => u m a zero)
                             (g := fun a => fsin (np.pi * a)); try assumption.
    + intros a Hu Hs. apply square_not_negative. unfold displacement_residual.
      apply sub_finite_not_nan; [exact Hu|].
      destruct (fsin (np.pi * a)); try discriminate; reflexivity.
    + unfold torch.sin, smul in Hsin. now rewrite map_map in Hsin.
  - apply mean_not_negative; [now rewrite length_map|].
    apply Forall_map_of with (P := is_finite) (Q := is_finite)
                             (f := fun a => u_t m a zero)
                             (g := fun a => u_t m a zero); try assumption.
    intros a Hv _. apply add_not_negative; [|apply lit_1e_6_not_negative].
    apply sq_finite_not_negative. exact Hv.
  - unfold spec_boundary_loss. apply add_not_negative.
    + apply mean_not_negative; [now rewrite length_map|].
      apply Forall_map_of with (P := is_finite) (Q := is_finite)
                               (f := fun b => u m zero b)
                               (g := fun b => u m zero b); try assumption.
      intros b Hv _. apply sq_finite_not_negative. exact Hv.
    + apply mean_not_negative; [now rewrite length_map|].
      apply Forall_map_of with (P := is_finite) (Q := is_finite)
                               (f := fun b => u m one b)
                               (g := fun b => u m one b); try assumption.
      intros b Hv _. apply sq_finite_not_negative. exact Hv.
Qed.

End Binary32Loss.

Lemma binary32_loss_never_negative_witness :
  twice_differentiable (forward (bias_pinn 1 two_pow_100)) = true /\
  forallb is_finite
    (required_values (forward (bias_pinn 1 two_pow_100)) (data grid_x) (data grid_t))
    = true /\
  exists loss : float32,
    returned (wave_pinn_loss one (forward (bias_pinn 1 two_pow_100)) grid_x grid_t)
      = Ok loss /\
    SFleb zero loss = true.
Proof.
  split; [reflexivity|]. split; [vm_compute; reflexivity|].
  apply (binary32_loss_never_negative poly_libm one
           (forward (bias_pinn 1 two_pow_100)) grid_x grid_t);
    vm_compute; reflexivity.
Defined.

(** C5, as the claim words it, fails in binary32: with the output bias at
    2^100 every value the evaluator reads off the approximator is finite
    (the output is 2^100, every derivative is 0), yet squaring the output
    overflows and the returned loss is +inf. *)
Lemma finite_values_infinite_loss :
  forallb is_finite
    (required_values (forward (bias_pinn 1 two_pow_100)) (data grid_x) (data grid_t))
    = true /\
  returned (wave_pinn_loss one (forward (bias_pinn 1 two_pow_100)) grid_x grid_t)
    = Ok (S754_infinity false) /\
  is_finite (S754_infinity false) = false.
Proof. vm_compute. repeat split. Qed.

(** ** Side effects of the evaluator *)

(** C7, as the code has it.  The evaluator sets the [requires_grad] flag of
    the caller's two batch tensors and changes nothing else: their elements
    stay, and the model, its gradients and the optimizer are untouched by
    the evaluation in the loop.  The returned value depends on the
    approximator and on the elements of the batch only, so a second call,
    on the tensors as the first one left them, returns the same loss and
    changes nothing at all. *)
Theorem evaluator_only_sets_requires_grad
    {F : Type} {B : Backend F} (c : F) (m : approximator F) (x t : tensor F) :
  data (x_after (wave_pinn_loss c m x t)) = data x /\
  data (t_after (wave_pinn_loss c m x t)) = data t /\
  requires_grad (x_after (wave_pinn_loss c m x t)) = true /\
  requires_grad (t_after (wave_pinn_loss c m x t)) = true /\
  (forall x' t' : tensor F,
     data x' = data x -> data t' = data t ->
     returned (wave_pinn_loss c m x' t') = returned (wave_pinn_loss c m x t)) /\
  wave_pinn_loss c m (x_after (wave_pinn_loss c m x t))
                     (t_after (wave_pinn_loss c m x t))
    = wave_pinn_loss c m x t /\
  (forall (O : Type) (st : training_state F O),
     model (snd (evaluate_loss c st)) = model st /\
     grads (snd (evaluate_loss c st)) = grads st /\
     optimizer (snd (evaluate_loss c st)) = optimizer st).
Proof.
  repeat split.
  intros x' t' Hx Ht. unfold wave_pinn_loss, set_requires_grad; cbn [returned].
  now rewrite Hx, Ht.
Qed.

(** C7, as the claim words it, fails: the caller's batch tensor is not
    left unchanged.  A tensor that did not require grad, as [torch.rand]
    returns it, requires grad after the call. *)
Lemma evaluator_changes_the_batch_tensor :
  requires_grad grid_x = false /\
  requires_grad
    (x_after (wave_pinn_loss one (forward (bias_pinn hidden one)) grid_x grid_t)) = true /\
  x_after (wave_pinn_loss one (forward (bias_pinn hidden one)) grid_x grid_t) <> grid_x.
Proof. repeat split. discriminate. Qed.

(** ** Gradient clipping *)

Section Clipping.
Local Open Scope R_scope.

Lemma sum_nil : torch.sum (@nil R) = 0.
Proof. reflexivity. Qed.

Lemma sum_scale (k : R) (l : list R) :
  torch.sum (map (Rmult k) l) = k * torch.sum l.
Proof.
  induction l as [|v l IH]; simpl map.
  - rewrite sum_nil. ring.
  - rewrite !sum_cons, IH. ring.
Qed.

Lemma sum_squares_nonneg (g : list R) : 0 <= torch.sum (tpow2 g).
Proof.
  induction g as [|v g IH].
  - change (tpow2 (@nil R)) with (@nil R). rewrite sum_nil. lra.
  - change (tpow2 (v :: g)) with (v * v :: tpow2 g). rewrite sum_cons. nra.
Qed.

Lemma total_norm_scale (k : R) (g : list R) :
  0 <= k ->
  torch.nn.utils.total_norm (smul k g) = k * torch.nn.utils.total_norm g.
Proof.
  intros Hk. unfold torch.nn.utils.total_norm, smul, tpow2.
  rewrite map_map.
  rewrite (map_ext _ (fun v => (k * k) * (v * v)))
    by (intros v; simpl; ring).
  rewrite <- (map_map (fun v => v * v) (Rmult (k * k))), sum_scale.
  change (@fsqrt R exact) with sqrt.
  rewrite sqrt_mult; [|nra|apply (sum_squares_nonneg g)].
  rewrite sqrt_square by exact Hk. reflexivity.
Qed.

Variable c : R.
Context {O : Type}.
Variable param_grad : PINN R -> tensor R -> tensor R -> list R.
Variable optimizer_step : O -> PINN R -> list R -> PINN R * O.

(** C4.  Clipping at a positive threshold: a gradient whose global norm
    exceeds the threshold is scaled by the positive factor threshold / norm,
    which keeps its direction and brings its norm to the threshold exactly;
    a gradient whose norm is at or below the threshold is returned as it
    is.  In a pass of the loop on a [PINN] and a batch of two columns of
    the same length, clipping (at threshold 1) happens once, after
    [backward] and before [step], and the optimizer is handed the clipped
    gradient of the whole parameter vector. *)
Theorem clipping_caps_the_norm
    (max_norm : R) (g : list R) (h epoch : nat) (st : training_state R O) :
  0 < max_norm ->
  PINN_shaped h (model st) = true ->
  length (data (x_train st)) = length (data (t_train st)) ->
  (max_norm < torch.nn.utils.total_norm g ->
     torch.nn.utils.clip_grad_norm_ g max_norm
       = smul (max_norm / torch.nn.utils.total_norm g) g /\
     0 < max_norm / torch.nn.utils.total_norm g /\
     torch.nn.utils.total_norm (torch.nn.utils.clip_grad_norm_ g max_norm)
       = max_norm) /\
  (torch.nn.utils.total_norm g <= max_norm ->
     torch.nn.utils.clip_grad_norm_ g max_norm = g) /\
  exists (loss : R) (st' : training_state R O),
    epoch_body c param_grad optimizer_step epoch st = (Continue, st') /\
    trace st' = trace st ++ [zero_grad_called; loss_evaluated (Ok loss);
                             backward_called; clip_grad_norm_called; step_called]
                         ++ progress_line epoch loss /\
    grads st' = Some (torch.nn.utils.clip_grad_norm_
                        (param_grad (model st) (flagged_x st) (flagged_t st)) 1) /\
    model st' = fst (optimizer_step (optimizer st) (model st)
                       (torch.nn.utils.clip_grad_norm_
                          (param_grad (model st) (flagged_x st) (flagged_t st)) 1)).
Proof.
  intros Hmax Hm Hlen. split; [|split].
  - intros Hgt. unfold torch.nn.utils.clip_grad_norm_.
    change (@fgtb R exact) with (fun a b : R => if Rlt_dec b a then true else false).
    cbv beta. destruct (Rlt_dec max_norm (torch.nn.utils.total_norm g)) as [_|Hn];
      [|contradiction].
    assert (Hpos : 0 < max_norm / torch.nn.utils.total_norm g).
    { apply Rdiv_lt_0_compat; lra. }
    split; [reflexivity|]. split; [exact Hpos|].
    change (@fdiv R exact) with Rdiv.
    rewrite total_norm_scale by lra. field. lra.
  - intros Hle. unfold torch.nn.utils.clip_grad_norm_.
    change (@fgtb R exact) with (fun a b : R => if Rlt_dec b a then true else false).
    cbv beta. destruct (Rlt_dec max_norm (torch.nn.utils.total_norm g)) as [Hn|_];
      [lra | reflexivity].
  - destruct (evaluate_loss_ok c h st (conj Hlen Hm)) as [loss Hloss].
    destruct (body_not_nan c param_grad optimizer_step epoch st loss Hloss eq_refl)
      as (st' & Hb & Hmod & _ & Hg & _ & _ & Htr).
    exists loss, st'. repeat split; assumption.
Qed.

End Clipping.

Lemma total_norm_3_4 : torch.nn.utils.total_norm [3; 4]%R = 5%R.
Proof.
  unfold torch.nn.utils.total_norm.
  replace (torch.sum (tpow2 [3; 4]%R)) with (5 * 5)%R.
  - apply sqrt_square. lra.
  - change (tpow2 [3; 4]%R) with [3 * 3; 4 * 4]%R.
    rewrite !sum_cons, sum_nil. lra.
Qed.

Lemma clipping_caps_the_norm_witness :
  (0 < 1)%R /\
  PINN_shaped hidden (model exact_start) = true /\
  length (data (x_train exact_start)) = length (data (t_train exact_start)) /\
  (1 < torch.nn.utils.total_norm [3; 4])%R /\
  torch.nn.utils.clip_grad_norm_ [3; 4]%R 1%R
    = smul (1 / torch.nn.utils.total_norm [3; 4])%R [3; 4]%R /\
  (0 < 1 / torch.nn.utils.total_norm [3; 4])%R /\
  torch.nn.utils.total_norm (torch.nn.utils.clip_grad_norm_ [3; 4]%R 1%R) = 1%R.
Proof.
  assert (H : (1 < torch.nn.utils.total_norm [3; 4])%R)
    by (rewrite total_norm_3_4; lra).
  split; [lra|]. split; [reflexivity|]. split; [reflexivity|].
  split; [exact H|].
  exact (proj1 (clipping_caps_the_norm 1%R no_gradient counting_step
                  1%R [3; 4]%R hidden 0 exact_start Rlt_0_1 eq_refl eq_refl) H).
Defined.

(** ** Further properties *)

Lemma nth_error_map2 {A C E : Type} (f : A -> C -> E)
    (l : list A) (m : list C) (i : nat) (a : A) (b : C) :
  nth_error l i = Some a -> nth_error m i = Some b ->
  nth_error (map2 f l m) i = Some (f a b).
Proof.
  revert m i; induction l as [|a' l IH]; intros [|b' m] [|i] Ha Hb;
    simpl in *; try discriminate.
  - now inversion Ha; inversion Hb.
  - now apply IH.
Qed.

(** X1. In exact arithmetic [torch.autograd.grad] returns, row by row, the
    partial derivative of the output row with respect to that row of the
    input. *)
Theorem autograd_grad_is_partial_derivative
    (g g' : graph_tensor R) (v : var) (i : nat) (xi ti : R) :
  torch.autograd.grad g v = Ok g' ->
  nth_error (data (arg_x g)) i = Some xi ->
  nth_error (data (arg_t g)) i = Some ti ->
  exists d : R,
    nth_error (values g') i = Some d /\
    nth_error (values g) i = Some (slice v (fn g) xi ti (coordinate v xi ti)) /\
    derivable_pt_lim (slice v (fn g) xi ti) (coordinate v xi ti) d.
Proof.
  intros Hg Hx Ht. unfold torch.autograd.grad in Hg.
  destruct (_ && _); [|discriminate]. inversion Hg; subst g'; clear Hg.
  exists (eval (D v (fn g)) xi ti). unfold values; cbn [fn arg_x arg_t].
  split; [now apply nth_error_map2|].
  split; [rewrite slice_at; now apply nth_error_map2|].
  apply D_partial_derivative.
Qed.

Lemma autograd_grad_is_partial_derivative_witness :
  exists d : R,
    nth_error (values {| fn := D T (exact_solution 1%R);
                         arg_x := set_requires_grad sample_x;
                         arg_t := set_requires_grad sample_t |}) 1 = Some d /\
    nth_error (values {| fn := exact_solution 1%R;
                         arg_x := set_requires_grad sample_x;
                         arg_t := set_requires_grad sample_t |}) 1
      = Some (slice T (exact_solution 1%R) half 0%R (coordinate T half 0%R)) /\
    derivable_pt_lim (slice T (exact_solution 1%R) half 0%R)
      (coordinate T half 0%R) d.
Proof.
  apply (autograd_grad_is_partial_derivative
           {| fn := exact_solution 1%R;
              arg_x := set_requires_grad sample_x;
              arg_t := set_requires_grad sample_t |}
           {| fn := D T (exact_solution 1%R);
              arg_x := set_requires_grad sample_x;
              arg_t := set_requires_grad sample_t |} T 1 half 0%R);
    reflexivity.
Defined.

(** X2. On a [PINN] the evaluator returns a loss exactly when the two
    columns have the same number of rows.  Then the four calls of
    [torch.autograd.grad] on the output go through: the graph of a [PINN]
    reaches both inputs, and so do the graphs of its first derivatives.
    Otherwise [model(x, t)] raises, and so does the evaluator. *)
Theorem evaluator_raises_iff_lengths_differ
    {F : Type} {B : Backend F} (c : F) (h : nat) (self : PINN F)
    (x t : tensor F) :
  PINN_shaped h self = true ->
  twice_differentiable (forward self) = true /\
  (length (data x) = length (data t) ->
   exists loss : F, returned (wave_pinn_loss c (forward self) x t) = Ok loss) /\
  (length (data x) <> length (data t) ->
   returned (wave_pinn_loss c (forward self) x t) = RuntimeError).
Proof.
  intros Hs. pose proof (forward_twice_differentiable h self Hs) as Hm.
  split; [exact Hm|]. split.
  - intros H. eexists. now apply loss_returned.
  - intros H. unfold wave_pinn_loss, wave_pinn_terms, call; cbn [returned data set_requires_grad].
    apply Nat.eqb_neq in H. now rewrite H.
Qed.

Lemma evaluator_raises_iff_lengths_differ_witness :
  PINN_shaped hidden (bias_pinn hidden (@one float32 f32)) = true /\
  returned (wave_pinn_loss one (forward (bias_pinn hidden one)) grid_x (column [f32_half]))
    = RuntimeError.
Proof.
  split; [reflexivity|].
  apply (evaluator_raises_iff_lengths_differ one hidden (bias_pinn hidden one)
           grid_x (column [f32_half])).
  - reflexivity.
  - discriminate.
Defined.

Section LoopExtras.
Context {F : Type} {B : Backend F}.
Variable c : F.
Context {O : Type}.
Variable param_grad : PINN F -> tensor F -> tensor F -> list F.
Variable optimizer_step : O -> PINN F -> list F -> PINN F * O.

Local Abbreviation state := (training_state F O).

(** X3. A pass that goes through prints its progress line, with the epoch
    and the loss, exactly when the epoch is a multiple of 500 (epoch 0
    included), as the last thing it does. *)
Theorem progress_is_printed_every_500_epochs
    (epoch : nat) (st : state) (loss : F) :
  fst (evaluate_loss c (zero_grad st)) = Ok loss ->
  torch.isnan loss = false ->
  exists st' : state,
    epoch_body c param_grad optimizer_step epoch st = (Continue, st') /\
    (epoch mod 500 = 0 ->
       trace st' = trace st ++ [zero_grad_called; loss_evaluated (Ok loss);
                                backward_called; clip_grad_norm_called; step_called;
                                printed (Epoch_loss epoch loss)]) /\
    (epoch mod 500 <> 0 ->
       trace st' = trace st ++ [zero_grad_called; loss_evaluated (Ok loss);
                                backward_called; clip_grad_norm_called; step_called]).
Proof.
  intros Hloss Hnan.
  destruct (body_not_nan c param_grad optimizer_step epoch st loss Hloss Hnan)
    as (st' & Hb & _ & _ & _ & _ & _ & Htr).
  exists st'. split; [exact Hb|]. unfold progress_line in Htr. split; intros H.
  - apply Nat.eqb_eq in H. rewrite H in Htr. rewrite Htr. reflexivity.
  - apply Nat.eqb_neq in H. rewrite H in Htr. now rewrite Htr, app_nil_r.
Qed.

Lemma body_keeps_batch (epoch : nat) (st : state) :
  data (x_train (snd (epoch_body c param_grad optimizer_step epoch st)))
    = data (x_train st) /\
  data (t_train (snd (epoch_body c param_grad optimizer_step epoch st)))
    = data (t_train st).
Proof.
  unfold epoch_body. generalize (Nat.eqb (epoch mod 500) 0); intros b.
  unfold evaluate_loss.
  destruct (returned _) as [loss|]; [|split; reflexivity].
  destruct (torch.isnan loss); [split; reflexivity|].
  unfold step, clip, backward; cbn.
  destruct (optimizer_step _ _ _) as [m' o'].
  destruct b; split; reflexivity.
Qed.

(** X4. The collocation batch is sampled once and reused: however the loop
    ends, the elements of [x_train] and [t_train] are those it started
    with. *)
Theorem batch_is_reused (n : nat) (st : state) :
  data (x_train (snd (training_loop c param_grad optimizer_step n st)))
    = data (x_train st) /\
  data (t_train (snd (training_loop c param_grad optimizer_step n st)))
    = data (t_train st).
Proof.
  unfold training_loop. generalize (seq 0 n); intros epochs.
  revert st; induction epochs as [|e epochs IH]; intros st; simpl.
  - split; reflexivity.
  - pose proof (body_keeps_batch e st) as [Hx Ht].
    destruct (epoch_body c param_grad optimizer_step e st) as [[| |] st1];
      cbn [snd] in *.
    + destruct (IH st1) as [Hx' Ht']. split; congruence.
    + split; assumption.
    + split; assumption.
Qed.

End LoopExtras.

Lemma progress_is_printed_every_500_epochs_witness :
  exists st' : training_state float32 nat,
    epoch_body one no_gradient counting_step 0 (start 1 two_pow_100) = (Continue, st') /\
    (0 mod 500 = 0 ->
       trace st' = trace (start 1 two_pow_100)
                   ++ [zero_grad_called; loss_evaluated (Ok (S754_infinity false));
                       backward_called; clip_grad_norm_called; step_called;
                       printed (Epoch_loss 0 (S754_infinity false))]) /\
    (0 mod 500 <> 0 ->
       trace st' = trace (start 1 two_pow_100)
                   ++ [zero_grad_called; loss_evaluated (Ok (S754_infinity false));
                       backward_called; clip_grad_norm_called; step_called]).
Proof.
  apply (progress_is_printed_every_500_epochs one no_gradient counting_step
           0 (start 1 two_pow_100) (S754_infinity false)).
  - vm_compute; reflexivity.
  - reflexivity.
Defined.

(** ** The forward pass *)

Section ForwardRow.
Context {F : Type} {B : Backend F}.

Lemma eval_fold_left_Add (l : list (term F)) (acc : term F) (x t : F) :
  eval (fold_left Add l acc) x t
  = fold_left fadd (map (fun e => eval e x t) l) (eval acc x t).
Proof.
  revert acc; induction l as [|e l IH]; intros acc; cbn; [reflexivity|].
  now rewrite IH.
Qed.

Lemma eval_linear (l : Linear F) (input : list (term F)) (x t : F) :
  map (fun e => eval e x t) (linear l input)
  = Linear_call l (map (fun e => eval e x t) input).
Proof.
  unfold linear, Linear_call. generalize (bias l).
  induction (weight l) as [|row rows IH]; intros [|b bs]; cbn [map2 map];
    try reflexivity.
  rewrite IH. f_equal. unfold feature. cbn [eval].
  rewrite eval_fold_left_Add. cbn [eval]. do 2 f_equal.
  clear. revert row; induction input as [|e input IH]; intros [|w row];
    cbn; try reflexivity. now rewrite IH.
Qed.

Lemma eval_tanh_layer (l : Linear F) (input : list (term F)) (x t : F) :
  map (fun e => eval e x t) (map Tanh (linear l input))
  = map ftanh (Linear_call l (map (fun e => eval e x t) input)).
Proof.
  rewrite map_map. cbn [eval].
  rewrite <- (map_map (fun e => eval e x t) ftanh). now rewrite eval_linear.
Qed.

Lemma eval_hd (l : list (term F)) (x t : F) :
  eval (hd (Const zero) l) x t = hd zero (map (fun e => eval e x t) l).
Proof. now destruct l. Qed.

(** X5. Evaluating the graph that [PINN.forward] records at a row gives
    exactly the number the layers compute on that row: three [nn.Linear]
    layers each followed by [tanh], then the output layer.  This holds in
    every numeric backend; [model(x, t)] on a batch is that computation row
    by row. *)
Theorem forward_graph_computes_the_layers
    (self : PINN F) (x t : tensor F) :
  (forall a b : F, u (forward self) a b = forward_row self a b) /\
  values {| fn := forward self; arg_x := x; arg_t := t |}
    = map2 (forward_row self) (data x) (data t).
Proof.
  assert (H : forall a b : F, u (forward self) a b = forward_row self a b).
  { intros a b. unfold u, forward, forward_row.
    now rewrite eval_hd, eval_linear, !eval_tanh_layer. }
  split; [exact H|].
  unfold values; cbn [fn arg_x arg_t].
  generalize (data t). induction (data x) as [|a xs IH]; intros [|b ts];
    cbn [map2]; try reflexivity.
  f_equal; [apply H | apply IH].
Qed.

End ForwardRow.

Section ForwardBound.
Local Open Scope R_scope.

Lemma tanh_bound (y : R) : Rabs (tanh y) < 1.
Proof.
  pose proof (exp_pos y) as Hp. pose proof (exp_pos (- y)) as Hn.
  pose proof (cosh_pos y) as Hc.
  assert (Hs : - cosh y < sinh y < cosh y) by (unfold sinh, cosh in *; lra).
  unfold tanh. apply Rabs_def1.
  - apply Rmult_lt_reg_r with (r := cosh y); [exact Hc|].
    unfold Rdiv. rewrite Rmult_assoc, Rinv_l by lra. lra.
  - apply Rmult_lt_reg_r with (r := cosh y); [exact Hc|].
    unfold Rdiv. rewrite Rmult_assoc, Rinv_l by lra. lra.
Qed.

Lemma eval_fold_Add (l : list (term R)) (acc : term R) (x t : R) :
  eval (fold_left Add l acc) x t
  = eval acc x t + torch.sum (map (fun e => eval e x t) l).
Proof.
  revert acc; induction l as [|e l IH]; intros acc; simpl.
  - rewrite sum_nil. lra.
  - rewrite IH, sum_cons. simpl. lra.
Qed.

Lemma sum_abs_nonneg (row : list R) : 0 <= torch.sum (torch.abs row).
Proof.
  induction row as [|w row IH].
  - change (torch.abs (@nil R)) with (@nil R). rewrite sum_nil. lra.
  - change (torch.abs (w :: row)) with (Rabs w :: torch.abs row).
    rewrite sum_cons. pose proof (Rabs_pos w). lra.
Qed.

Lemma weighted_sum_bound (input : list (term R)) (row : list R) (x t : R) :
  Forall (fun e => Rabs (eval e x t) <= 1) input ->
  Rabs (torch.sum (map (fun e => eval e x t)
                     (map2 (fun a w => Mul a (Const w)) input row)))
  <= torch.sum (torch.abs row).
Proof.
  intros Hall. revert row; induction Hall as [|e input He _ IH]; intros row.
  - cbn [map2 map]. rewrite sum_nil, Rabs_R0. apply sum_abs_nonneg.
  - destruct row as [|w row]; cbn [map2 map].
    + rewrite sum_nil, Rabs_R0. apply sum_abs_nonneg.
    + change (torch.abs (w :: row)) with (Rabs w :: torch.abs row).
      rewrite !sum_cons.
      eapply Rle_trans; [apply Rabs_triang|].
      apply Rplus_le_compat; [|apply IH].
      cbn [eval]. change (@fmul R exact) with Rmult.
      rewrite Rabs_mult. pose proof (Rabs_pos w). nra.
Qed.

Lemma sum_app (l1 l2 : list R) :
  torch.sum (l1 ++ l2) = torch.sum l1 + torch.sum l2.
Proof.
  induction l1 as [|v l1 IH]; cbn [app].
  - rewrite sum_nil. lra.
  - rewrite !sum_cons, IH. lra.
Qed.

(** X6. In exact arithmetic the output of a [PINN] is bounded, whatever
    its input: since every hidden activation is a [tanh], the output never
    exceeds in absolute value the sum of the absolute values of the output
    layer's weights and bias. *)
Theorem forward_output_is_bounded (h : nat) (self : PINN R) (x t : R) :
  PINN_shaped h self = true ->
  Rabs (u (forward self) x t)
  <= torch.sum (torch.abs (layer_parameters (output_layer self))).
Proof.
  unfold PINN_shaped. intros H. apply andb_prop in H as [_ H].
  apply Linear_shaped_inv in H as (Hw & Hb & _).
  unfold u, forward, linear, layer_parameters.
  destruct (weight (output_layer self)) as [|row [|row' rows]]; try discriminate.
  destruct (bias (output_layer self)) as [|b [|b' bs]]; try discriminate.
  cbn [map2 hd concat]. rewrite app_nil_r.
  unfold torch.abs. rewrite map_app. fold (torch.abs row).
  rewrite sum_app. cbn [map]. rewrite sum_cons, sum_nil, Rplus_0_r.
  unfold feature. cbn [eval]. rewrite eval_fold_Add. cbn [eval].
  change (@zero R exact) with 0. change (@fadd R exact) with Rplus.
  change (@fabs R exact) with Rabs.
  eapply Rle_trans; [apply Rabs_triang|].
  apply Rplus_le_compat_r. rewrite Rplus_0_l.
  apply weighted_sum_bound.
  apply Forall_map. apply Forall_forall. intros e _. cbn [eval].
  left. apply tanh_bound.
Qed.

Lemma forward_output_is_bounded_witness :
  PINN_shaped hidden (bias_pinn hidden half) = true /\
  Rabs (u (forward (bias_pinn hidden half)) 0 half)
  <= torch.sum (torch.abs (layer_parameters (output_layer (bias_pinn hidden half)))).
Proof.
  split; [reflexivity|].
  apply (forward_output_is_bounded hidden (bias_pinn hidden half) 0 half).
  reflexivity.
Defined.

End ForwardBound.

Section ParameterCount.
Context {F : Type} {B : Backend F}.

Lemma length_concat_rows (n_in : nat) (rows : list (list F)) :
  Forall (fun row => length row = n_in) rows ->
  length (concat rows) = length rows * n_in.
Proof.
  induction 1 as [|row rows Hrow _ IH]; simpl; [reflexivity|].
  rewrite length_app, IH, Hrow. reflexivity.
Qed.

Lemma layer_parameters_length (n_in n_out : nat) (l : Linear F) :
  Linear_shaped n_in n_out l = true ->
  length (layer_parameters l) = n_out * n_in + n_out.
Proof.
  intros H. apply Linear_shaped_inv in H as (Hw & Hb & Hrows).
  unfold layer_parameters.
  rewrite length_app, (length_concat_rows n_in) by exact Hrows.
  now rewrite Hw, Hb.
Qed.

(** X7. [model.parameters()] of a [PINN] of hidden width [h] holds
    [2 h^2 + 6 h + 1] numbers, 921 for the notebook's width of 20. *)
Theorem parameters_count (h : nat) (self : PINN F) :
  PINN_shaped h self = true ->
  length (parameters self) = 2 * h * h + 6 * h + 1.
Proof.
  unfold PINN_shaped. intros H.
  apply andb_prop in H as [H H4]. apply andb_prop in H as [H H3].
  apply andb_prop in H as [H H2]. apply andb_prop in H as [_ H1].
  unfold parameters. rewrite !length_app.
  rewrite (layer_parameters_length 2 h _ H1), (layer_parameters_length h h _ H2),
    (layer_parameters_length h h _ H3), (layer_parameters_length h 1 _ H4).
  lia.
Qed.

End ParameterCount.

Lemma parameters_count_witness :
  PINN_shaped hidden (bias_pinn hidden (@one float32 f32)) = true /\
  length (parameters (bias_pinn hidden (@one float32 f32))) = 921.
Proof.
  split; [reflexivity|].
  apply (parameters_count hidden (bias_pinn hidden one)). reflexivity.
Defined.

(** ** When the evaluator raises *)

(** X8. On two columns of the same length the evaluator returns a loss
    exactly for an approximator whose graph reaches both inputs, and whose
    first derivatives' graphs do so again; for any other callable (one that
    is linear in [t], say) one of the four calls of [torch.autograd.grad]
    on the output raises, and the evaluator with it. *)
Theorem evaluator_returns_iff_twice_differentiable
    {F : Type} {B : Backend F} (c : F) (m : approximator F) (x t : tensor F) :
  length (data x) = length (data t) ->
  (exists loss : F, returned (wave_pinn_loss c m x t) = Ok loss)
  <-> twice_differentiable m = true.
Proof.
  intros Hlen. split.
  - intros [loss H]. unfold wave_pinn_loss in H; cbn [returned] in H.
    unfold wave_pinn_terms, torch.autograd.grad in H.
    rewrite call_same_length in H by exact Hlen. cbn in H.
    unfold twice_differentiable, reaches_twice.
    destruct (uses T m); [|discriminate H]. cbn in H.
    destruct (uses T (D T m)); [|discriminate H]. cbn in H.
    destruct (uses X m); [|discriminate H]. cbn in H.
    destruct (uses X (D X m)); [|discriminate H]. reflexivity.
  - intros Hm. eexists. now apply loss_returned.
Qed.

Lemma evaluator_returns_iff_twice_differentiable_witness :
  twice_differentiable (Add (Var X) (Var T) : approximator R) = false /\
  ~ exists loss : R,
      returned (wave_pinn_loss 1%R (Add (Var X) (Var T)) sample_x sample_t) = Ok loss.
Proof.
  split; [reflexivity|].
  intros H.
  apply (evaluator_returns_iff_twice_differentiable 1%R (Add (Var X) (Var T))
           sample_x sample_t eq_refl) in H.
  discriminate H.
Defined.

(** ** The order of the batch *)

Section BatchOrder.
Local Open Scope R_scope.

Lemma sum_Permutation (l l' : list R) :
  Permutation l l' -> torch.sum l = torch.sum l'.
Proof.
  induction 1 as [|v l l' _ IH|v w l|l l' l'' _ IH1 _ IH2].
  - reflexivity.
  - now rewrite !sum_cons, IH.
  - rewrite !sum_cons. lra.
  - now rewrite IH1.
Qed.

Lemma mean_Permutation (l l' : list R) :
  Permutation l l' -> torch.mean l = torch.mean l'.
Proof.
  intros H. rewrite !mean_exact, (sum_Permutation l l' H).
  now rewrite (Permutation_length H).
Qed.

Lemma map2_rows {E : Type} (f : R -> R -> E) (rows : list (R * R)) :
  map2 f (map fst rows) (map snd rows) = map (fun r => f (fst r) (snd r)) rows.
Proof. induction rows as [|r rows IH]; cbn; [reflexivity | now rewrite IH]. Qed.

(** X9. In exact arithmetic the loss does not depend on the order of the
    rows of the batch: permuting the collocation points, [x] and [t]
    together, leaves the returned value unchanged. *)
Theorem loss_ignores_the_order_of_the_batch
    (c : R) (m : approximator R) (rows rows' : list (R * R)) :
  twice_differentiable m = true ->
  Permutation rows rows' ->
  returned (wave_pinn_loss c m (column (map fst rows)) (column (map snd rows)))
  = returned (wave_pinn_loss c m (column (map fst rows')) (column (map snd rows'))).
Proof.
  intros Hm Hp.
  rewrite !(loss_returned c m _ _ Hm) by (cbn; now rewrite !length_map).
  cbn [data column]. f_equal.
  unfold spec_composite_loss, spec_physics_loss, spec_initial_loss,
    spec_velocity_loss, spec_boundary_loss.
  rewrite !map2_rows, !map_map.
  repeat (f_equal; try (apply mean_Permutation; now apply Permutation_map)).
Qed.

Lemma loss_ignores_the_order_of_the_batch_witness :
  returned (wave_pinn_loss 1 (exact_solution 1)
              (column (map fst [(0, half); (half, 1)]))
              (column (map snd [(0, half); (half, 1)])))
  = returned (wave_pinn_loss 1 (exact_solution 1)
                (column (map fst [(half, 1); (0, half)]))
                (column (map snd [(half, 1); (0, half)]))).
Proof.
  apply (loss_ignores_the_order_of_the_batch 1 (exact_solution 1)
           [(0, half); (half, 1)] [(half, 1); (0, half)]).
  - reflexivity.
  - apply perm_swap.
Defined.

End BatchOrder.

(** ** Degenerate batches *)

Section EmptyBatch.
Variable L : Libm.
#[local] Hint Extern 0 (Backend float32) => exact (binary32 L) : typeclass_instances.
Variable c : float32.
Context {O : Type}.
Variable param_grad : PINN float32 -> tensor float32 -> tensor float32 -> list float32.
Variable optimizer_step : O -> PINN float32 -> list float32 -> PINN float32 * O.

Lemma empty_batch_loss (m : approximator float32) (x t : tensor float32) :
  twice_differentiable m = true -> data x = [] -> data t = [] ->
  returned (wave_pinn_loss c m x t) = Ok S754_nan.
Proof.
  intros Hm Hx Ht. rewrite (loss_returned c m x t Hm) by now rewrite Hx, Ht.
  rewrite Hx, Ht. reflexivity.
Qed.

(** X10. On an empty batch every [torch.mean] is 0/0: the loss of a
    [PINN] is NaN in binary32, whatever the parameters and the math
    library, and the training loop stops in its first pass with the line
    naming epoch 0, before any step. *)
Theorem empty_batch_stops_training_at_once
    (h n : nat) (st : training_state float32 O) :
  PINN_shaped h (model st) = true ->
  data (x_train st) = [] -> data (t_train st) = [] -> (0 < n)%nat ->
  returned (wave_pinn_loss c (forward (model st)) (x_train st) (t_train st))
    = Ok S754_nan /\
  exists st',
    training_loop c param_grad optimizer_step n st = (stopped_at 0, st') /\
    model st' = model st /\ optimizer st' = optimizer st /\
    trace st' = trace st ++ [zero_grad_called; loss_evaluated (Ok S754_nan);
                             printed (NaN_encountered 0)].
Proof.
  intros Hs Hx Ht Hn.
  pose proof (forward_twice_differentiable h _ Hs) as Hm.
  pose proof (empty_batch_loss _ _ _ Hm Hx Ht) as Hloss.
  split; [exact Hloss|].
  destruct (body_nan c param_grad optimizer_step 0 st S754_nan Hloss eq_refl)
    as (st' & Hb & Hmod & Ho & _ & _ & _ & Htr).
  exists st'. split; [|now repeat split].
  destruct n as [|n]; [lia|].
  unfold training_loop. cbn [seq for_epochs]. now rewrite Hb.
Qed.

End EmptyBatch.

Lemma empty_batch_stops_training_at_once_witness :
  exists st',
    training_loop one no_gradient counting_step num_epochs
      {| model := bias_pinn hidden one; grads := None; optimizer := 0%nat;
         x_train := column []; t_train := column []; trace := [] |}
      = (stopped_at 0, st') /\
    trace st' = [zero_grad_called; loss_evaluated (Ok S754_nan);
                 printed (NaN_encountered 0)].
Proof.
  destruct (empty_batch_stops_training_at_once poly_libm one no_gradient counting_step
              hidden num_epochs
              {| model := bias_pinn hidden one; grads := None; optimizer := 0%nat;
                 x_train := column []; t_train := column []; trace := [] |}
              eq_refl eq_refl eq_refl)
    as (_ & st' & Hrun & _ & _ & Htr); [unfold num_epochs; lia|].
  exists st'. split; [exact Hrun | exact Htr].
Defined.

Section LoopRaises.
Context {F : Type} {B : Backend F}.
Variable c : F.
Context {O : Type}.
Variable param_grad : PINN F -> tensor F -> tensor F -> list F.
Variable optimizer_step : O -> PINN F -> list F -> PINN F * O.

Lemma mismatched_loss (m : approximator F) (x t : tensor F) :
  length (data x) <> length (data t) ->
  returned (wave_pinn_loss c m x t) = RuntimeError.
Proof.
  intros H. unfold wave_pinn_loss, wave_pinn_terms, call;
    cbn [returned data set_requires_grad].
  apply Nat.eqb_neq in H. now rewrite H.
Qed.

(** X11. With [x_train] and [t_train] of different lengths the loop
    raises in its first pass: [optimizer.zero_grad()] has run, the
    evaluator raises at [model(x, t)], and neither the parameters nor the
    optimizer have been touched. *)
Theorem mismatched_batch_raises_in_first_epoch
    (n : nat) (st : training_state F O) :
  length (data (x_train st)) <> length (data (t_train st)) -> 0 < n ->
  exists st',
    training_loop c param_grad optimizer_step n st = (raised_at 0, st') /\
    model st' = model st /\ optimizer st' = optimizer st /\
    trace st' = trace st ++ [zero_grad_called; loss_evaluated RuntimeError].
Proof.
  intros Hlen Hn. destruct n as [|n]; [lia|].
  unfold training_loop. cbn [seq for_epochs]. unfold epoch_body, evaluate_loss.
  cbn [zero_grad log model x_train t_train].
  rewrite (mismatched_loss _ _ _ Hlen).
  eexists. split; [reflexivity|]. cbn. repeat split. now rewrite <- app_assoc.
Qed.

End LoopRaises.

Lemma mismatched_batch_raises_in_first_epoch_witness :
  exists st',
    training_loop one no_gradient counting_step num_epochs
      {| model := bias_pinn hidden one; grads := None; optimizer := 0%nat;
         x_train := grid_x; t_train := column [f32_half]; trace := [] |}
      = (raised_at 0, st') /\
    optimizer st' = 0%nat /\
    trace st' = [zero_grad_called; loss_evaluated RuntimeError].
Proof.
  destruct (mismatched_batch_raises_in_first_epoch one no_gradient counting_step
              num_epochs
              {| model := bias_pinn hidden one; grads := None; optimizer := 0%nat;
                 x_train := grid_x; t_train := column [f32_half]; trace := [] |})
    as (st' & Hrun & _ & Ho & Htr).
  - cbn. discriminate.
  - unfold num_epochs. lia.
  - exists st'. repeat split; assumption.
Defined.

(** ** What a run of the loop has done *)

Lemma multiples_of_500_below (d : nat) :
  length (filter (fun e => Nat.eqb (e mod 500) 0) (seq 0 d)) = (d + 499) / 500.
Proof.
  induction d as [|d IH]; [reflexivity|].
  rewrite seq_S, filter_app, length_app, IH, Nat.add_0_l. cbn [filter].
  pose proof (Nat.div_mod_eq d 500) as Hd.
  pose proof (Nat.mod_upper_bound d 500 ltac:(discriminate)) as Hr.
  remember (d / 500) as q. remember (d mod 500) as r.
  destruct (Nat.eqb_spec r 0) as [H0|H0]; cbn [length].
  - rewrite <- (Nat.div_unique (d + 499) 500 q 499) by lia.
    rewrite <- (Nat.div_unique (S d + 499) 500 (S q) 0) by lia. lia.
  - rewrite <- (Nat.div_unique (d + 499) 500 (S q) (r - 1)) by lia.
    rewrite <- (Nat.div_unique (S d + 499) 500 (S q) r) by lia. lia.
Qed.

Section LoopAccounting.
Context {F : Type} {B : Backend F}.
Variable c : F.
Context {O : Type}.
Variable param_grad : PINN F -> tensor F -> tensor F -> list F.
Variable optimizer_step : O -> PINN F -> list F -> PINN F * O.

Local Abbreviation state := (training_state F O).
Local Abbreviation body := (epoch_body c param_grad optimizer_step).
Local Abbreviation loop := (for_epochs c param_grad optimizer_step).

Lemma count_app (p : event F -> bool) (tr1 tr2 : list (event F)) :
  count p (tr1 ++ tr2) = count p tr1 + count p tr2.
Proof. unfold count. now rewrite filter_app, length_app. Qed.

(** What one pass appends to the trace, by the way it ends. *)
Lemma body_trace (epoch : nat) (st : state) :
  match body epoch st with
  | (Continue, st') =>
      exists loss, trace st' = trace st
        ++ [zero_grad_called; loss_evaluated (Ok loss); backward_called;
            clip_grad_norm_called; step_called] ++ progress_line epoch loss
  | (Break, st') =>
      exists loss, trace st' = trace st
        ++ [zero_grad_called; loss_evaluated (Ok loss);
            printed (NaN_encountered epoch)]
  | (Raise, st') =>
      trace st' = trace st ++ [zero_grad_called; loss_evaluated RuntimeError]
  end.
Proof.
  destruct (fst (evaluate_loss c (zero_grad st))) as [loss|] eqn:Hloss.
  - destruct (torch.isnan loss) eqn:Hnan.
    + destruct (body_nan c param_grad optimizer_step epoch st loss Hloss Hnan)
        as (st' & Hb & _ & _ & _ & _ & _ & Htr).
      rewrite Hb. now exists loss.
    + destruct (body_not_nan c param_grad optimizer_step epoch st loss Hloss Hnan)
        as (st' & Hb & _ & _ & _ & _ & _ & Htr).
      rewrite Hb. now exists loss.
  - unfold epoch_body. unfold evaluate_loss in *. cbn [fst] in Hloss.
    rewrite Hloss. cbn. now rewrite <- app_assoc.
Qed.

Lemma count_progress_line (epoch : nat) (loss : F) :
  count is_progress_line (progress_line epoch loss)
  = length (filter (fun e => Nat.eqb (e mod 500) 0) [epoch]).
Proof. unfold progress_line. cbn [filter]. now destruct (Nat.eqb _ _). Qed.

Lemma other_counts_progress_line (epoch : nat) (loss : F) :
  count is_backward (progress_line epoch loss) = 0 /\
  count is_clip (progress_line epoch loss) = 0 /\
  count is_step (progress_line epoch loss) = 0.
Proof. unfold progress_line. now destruct (Nat.eqb _ _). Qed.

(** The [for] statement over [range(a, a + n)]: [d] passes run to their
    end, and the trace grows accordingly. *)
Lemma loop_accounting (n a : nat) (st : state) :
  exists d : nat,
    match fst (loop (seq a n) st) with
    | range_exhausted => d = n
    | stopped_at k | raised_at k => k = a + d /\ d < n
    end /\
    count is_backward (trace (snd (loop (seq a n) st)))
      = count is_backward (trace st) + d /\
    count is_clip (trace (snd (loop (seq a n) st)))
      = count is_clip (trace st) + d /\
    count is_step (trace (snd (loop (seq a n) st)))
      = count is_step (trace st) + d /\
    count is_progress_line (trace (snd (loop (seq a n) st)))
      = count is_progress_line (trace st)
        + length (filter (fun e => Nat.eqb (e mod 500) 0) (seq a d)) /\
    iterations (trace (snd (loop (seq a n) st)))
      = iterations (trace st) + d
        + match fst (loop (seq a n) st) with range_exhausted => 0 | _ => 1 end.
Proof.
  revert a st; induction n as [|n IH]; intros a st.
  - exists 0. cbn. repeat split; lia.
  - cbn [seq for_epochs]. pose proof (body_trace a st) as Hb.
    destruct (body a st) as [[| |] st1].
    + destruct Hb as [loss Htr]. destruct (IH (S a) st1) as (d & Hd & H1 & H2 & H3 & H4 & H5).
      exists (S d). split; [|split; [|split; [|split; [|split]]]].
      * destruct (fst (loop (seq (S a) n) st1)); lia.
      * rewrite H1, Htr, !count_app.
        rewrite (proj1 (other_counts_progress_line a loss)). cbn. lia.
      * rewrite H2, Htr, !count_app.
        rewrite (proj1 (proj2 (other_counts_progress_line a loss))). cbn. lia.
      * rewrite H3, Htr, !count_app.
        rewrite (proj2 (proj2 (other_counts_progress_line a loss))). cbn. lia.
      * rewrite H4, Htr, !count_app, count_progress_line.
        cbn [seq filter]. destruct (Nat.eqb (a mod 500) 0); cbn; lia.
      * rewrite H5, Htr, !iterations_app, iterations_progress_line. cbn. lia.
    + destruct Hb as [loss Htr]. exists 0. cbn [fst snd seq filter length].
      rewrite Htr, !count_app, iterations_app. cbn. repeat split; lia.
    + exists 0. cbn [fst snd seq filter length].
      rewrite Hb, !count_app, iterations_app. cbn. repeat split; lia.
Qed.

(** X12. However the loop ends, [loss.backward()], [clip_grad_norm_] and
    [optimizer.step()] have each been called exactly once per pass that ran
    to its end, [n] times when the range is exhausted and [k] times when
    pass [k] stopped on a NaN loss or raised; [optimizer.zero_grad()] has
    been called once more than that in the last two cases. *)
Theorem one_step_per_completed_epoch (n : nat) (st : state) :
  completed n (fst (training_loop c param_grad optimizer_step n st)) <= n /\
  count is_backward (trace (snd (training_loop c param_grad optimizer_step n st)))
    = count is_backward (trace st)
      + completed n (fst (training_loop c param_grad optimizer_step n st)) /\
  count is_clip (trace (snd (training_loop c param_grad optimizer_step n st)))
    = count is_clip (trace st)
      + completed n (fst (training_loop c param_grad optimizer_step n st)) /\
  count is_step (trace (snd (training_loop c param_grad optimizer_step n st)))
    = count is_step (trace st)
      + completed n (fst (training_loop c param_grad optimizer_step n st)) /\
  iterations (trace (snd (training_loop c param_grad optimizer_step n st)))
    = iterations (trace st)
      + completed n (fst (training_loop c param_grad optimizer_step n st))
      + match fst (training_loop c param_grad optimizer_step n st) with
        | range_exhausted => 0
        | _ => 1
        end.
Proof.
  unfold training_loop.
  destruct (loop_accounting n 0 st) as (d & Hd & H1 & H2 & H3 & _ & H5).
  assert (Hc : completed n (fst (loop (seq 0 n) st)) = d /\ d <= n).
  { destruct (fst (loop (seq 0 n) st)); cbn [completed]; lia. }
  destruct Hc as [Hc Hle]. rewrite Hc. repeat split; assumption.
Qed.

(** X13. The loop prints one progress line for every 500 passes begun:
    with [d] passes run to their end it has printed [ceil (d / 500)] of
    them, 10 in a full run of 5000 epochs. *)
Theorem progress_lines_count (n : nat) (st : state) :
  count is_progress_line
    (trace (snd (training_loop c param_grad optimizer_step n st)))
  = count is_progress_line (trace st)
    + (completed n (fst (training_loop c param_grad optimizer_step n st)) + 499) / 500.
Proof.
  unfold training_loop.
  destruct (loop_accounting n 0 st) as (d & Hd & _ & _ & _ & H4 & _).
  assert (Hc : completed n (fst (loop (seq 0 n) st)) = d).
  { destruct (fst (loop (seq 0 n) st)); cbn [completed]; lia. }
  rewrite Hc, H4, multiples_of_500_below. reflexivity.
Qed.

End LoopAccounting.

(** ** Running the loop again *)

Section Rerun.
Context {F : Type} {B : Backend F}.
Variable c : F.
Context {O : Type}.
Variable param_grad : PINN F -> tensor F -> tensor F -> list F.
Variable optimizer_step : O -> PINN F -> list F -> PINN F * O.

Local Abbreviation state := (training_state F O).
Local Abbreviation body := (epoch_body c param_grad optimizer_step).
Local Abbreviation loop := (for_epochs c param_grad optimizer_step).

Lemma same_objects_refl (st : state) : same_objects st st.
Proof. repeat split. Qed.

(** Neither the epoch number nor the lines logged so far change what a
    pass does to the model, the gradients, the optimizer and the batch. *)
Lemma body_same_objects (e e' : nat) (st st' : state) :
  same_objects st st' ->
  fst (body e st) = fst (body e' st') /\
  same_objects (snd (body e st)) (snd (body e' st')).
Proof.
  destruct st as [m g o x t tr], st' as [m' g' o' x' t' tr'].
  intros (Hm & Hg & Ho & Hx & Ht); cbn in Hm, Hg, Ho, Hx, Ht; subst m' g' o' x' t'.
  unfold epoch_body, evaluate_loss.
  cbn [zero_grad log model grads optimizer x_train t_train trace].
  destruct (returned (wave_pinn_loss c (forward m) x t)) as [loss|];
    [|split; [reflexivity | repeat split]].
  destruct (torch.isnan loss); [split; [reflexivity | repeat split]|].
  generalize (Nat.eqb (e mod 500) 0), (Nat.eqb (e' mod 500) 0); intros b b'.
  unfold step, clip, backward; cbn.
  destruct (optimizer_step _ _ _) as [m1 o1].
  destruct b, b'; split; try reflexivity; repeat split.
Qed.

Lemma loop_same_objects (n0 m b : nat) (st st' : state) :
  same_objects st st' ->
  fst (loop (seq (n0 + b) m) st) = shift_exit n0 (fst (loop (seq b m) st')) /\
  same_objects (snd (loop (seq (n0 + b) m) st)) (snd (loop (seq b m) st')).
Proof.
  revert b st st'; induction m as [|m IH]; intros b st st' Hs.
  - cbn. split; [reflexivity | exact Hs].
  - cbn [seq for_epochs].
    destruct (body_same_objects (n0 + b) b st st' Hs) as [Hc Hs1].
    destruct (body (n0 + b) st) as [ctl st1], (body b st') as [ctl' st1'].
    cbn [fst snd] in Hc, Hs1. subst ctl'.
    destruct ctl.
    + rewrite <- Nat.add_succ_r. now apply IH.
    + cbn. split; [reflexivity | exact Hs1].
    + cbn. split; [reflexivity | exact Hs1].
Qed.

(** X14. Running the loop again after a full run continues the
    training: [n] epochs followed by [m] more leave the model, the
    gradients, the optimizer and the batch exactly as one run of [n + m]
    epochs does, and end the same way, the epoch numbers of the second run
    starting again from 0. *)
Theorem rerunning_the_loop_continues_training (n m : nat) (st st1 : state) :
  training_loop c param_grad optimizer_step n st = (range_exhausted, st1) ->
  fst (training_loop c param_grad optimizer_step (n + m) st)
    = shift_exit n (fst (training_loop c param_grad optimizer_step m st1)) /\
  same_objects (snd (training_loop c param_grad optimizer_step (n + m) st))
               (snd (training_loop c param_grad optimizer_step m st1)).
Proof.
  intros Hrun. unfold training_loop in *.
  rewrite seq_app, (for_epochs_app _ _ _ _ _ _ _ Hrun). cbn [Nat.add].
  rewrite <- (Nat.add_0_r n) at 1 3.
  apply loop_same_objects, same_objects_refl.
Qed.

End Rerun.

Lemma rerunning_the_loop_continues_training_witness :
  training_loop one no_gradient counting_step 1 (start 1 two_pow_100)
    = (range_exhausted,
       snd (training_loop one no_gradient counting_step 1 (start 1 two_pow_100))) /\
  optimizer (snd (training_loop one no_gradient counting_step (1 + 2)
                    (start 1 two_pow_100)))
  = optimizer (snd (training_loop one no_gradient counting_step 2
                      (snd (training_loop one no_gradient counting_step 1
                              (start 1 two_pow_100))))).
Proof.
  assert (H : training_loop one no_gradient counting_step 1 (start 1 two_pow_100)
              = (range_exhausted,
                 snd (training_loop one no_gradient counting_step 1
                        (start 1 two_pow_100))))
    by (vm_compute; reflexivity).
  split; [exact H|].
  exact (proj1 (proj2 (proj2 (proj2
           (rerunning_the_loop_continues_training one no_gradient counting_step
              1 2 (start 1 two_pow_100) _ H))))).
Defined.

(** ** The accuracy report, continued *)

Section ExactAccuracy.
Local Open Scope R_scope.

Lemma sum_sq_diff_zero (p e : list R) :
  length p = length e ->
  (torch.sum (tpow2 (tsub p e)) = 0 <-> p = e).
Proof.
  revert e; induction p as [|a p IH]; intros [|b e] Hlen; try discriminate.
  - split; [reflexivity|]. intros _. apply sum_nil.
  - change (tpow2 (tsub (a :: p) (b :: e)))
      with ((a - b) * (a - b) :: tpow2 (tsub p e)).
    rewrite sum_cons.
    pose proof (sum_squares_nonneg (tsub p e)) as Hs.
    specialize (IH e ltac:(simpl in Hlen; lia)).
    split.
    + intros H. pose proof (Rle_0_sqr (a - b)) as Hd. unfold Rsqr in Hd.
      assert (Ha : (a - b) * (a - b) = 0) by lra.
      assert (Hp : torch.sum (tpow2 (tsub p e)) = 0) by lra.
      apply IH in Hp. subst e. f_equal.
      apply Rmult_integral in Ha. lra.
    + intros H. inversion H; subst. destruct IH as [_ IH].
      rewrite (IH eq_refl). ring.
Qed.

Lemma mean_zero_iff (l : list R) :
  l <> [] -> (torch.mean l = 0 <-> torch.sum l = 0).
Proof.
  intros Hne. rewrite mean_exact. pose proof (length_pos l Hne) as Hn.
  split; intros H.
  - apply Rmult_eq_reg_r with (r := / INR (length l)).
    + unfold Rdiv in H. rewrite H. ring.
    + apply Rinv_neq_0_compat. lra.
  - rewrite H. unfold Rdiv. ring.
Qed.

(** X15. In exact arithmetic the mean squared error reported by
    [calculate_accuracy] on a non-empty test batch is never negative, and
    it is zero exactly when the model agrees with the reference solution at
    every test point. *)
Theorem mse_vanishes_only_for_exact_predictions
    (c : R) (m : approximator R) (x t : tensor R) :
  length (data x) = length (data t) -> data x <> [] ->
  exists mse relative_error : R,
    calculate_accuracy c m x t = Ok (mse, relative_error) /\
    0 <= mse /\
    (mse = 0 <->
     map2 (u m) (data x) (data t) = map2 (u (exact_solution c)) (data x) (data t)).
Proof.
  intros Hlen Hne. unfold calculate_accuracy.
  rewrite !call_same_length by exact Hlen. cbn [bind].
  eexists; eexists; split; [reflexivity|].
  unfold values; cbn [fn arg_x arg_t]. fold (u m) (u (exact_solution c)).
  set (p := map2 (u m) (data x) (data t)).
  set (e := map2 (u (exact_solution c)) (data x) (data t)).
  assert (Hpe : length p = length e).
  { unfold p, e. now rewrite !map2_length. }
  assert (Hl : tpow2 (tsub p e) <> []).
  { unfold tpow2, tsub. apply map_nonempty, map2_nonempty; [exact Hpe|].
    unfold p. now apply map2_nonempty. }
  split.
  - apply mean_lower_bound; [exact Hl|].
    unfold tpow2. apply Forall_map_all. intros v. simpl. nra.
  - rewrite mean_zero_iff by exact Hl. now apply sum_sq_diff_zero.
Qed.

Lemma mse_vanishes_only_for_exact_predictions_witness :
  exists mse relative_error : R,
    calculate_accuracy 1 (exact_solution 1) sample_x sample_t
      = Ok (mse, relative_error) /\
    0 <= mse /\
    (mse = 0 <->
     map2 (u (exact_solution 1)) (data sample_x) (data sample_t)
     = map2 (u (exact_solution 1)) (data sample_x) (data sample_t)).
Proof.
  apply (mse_vanishes_only_for_exact_predictions 1 (exact_solution 1)
           sample_x sample_t); [reflexivity | discriminate].
Defined.

End ExactAccuracy.

Section TestTime.
Local Open Scope R_scope.

Lemma lit_0_5_exact : @lit_0_5 R exact = 1 / 2.
Proof. reflexivity. Qed.

Lemma exact_solution_at_test_time (k : Z) (a : R) :
  u (exact_solution (IZR (2 * k + 1))) a lit_0_5 = 0.
Proof.
  unfold u, exact_solution, np.pi. cbn -[sin cos PI IZR lit_0_5 Z.mul Z.add].
  rewrite lit_0_5_exact.
  rewrite (cos_eq_0_1 (IZR (2 * k + 1) * PI * (1 / 2))); [ring|].
  exists k. rewrite plus_IZR, mult_IZR. field.
Qed.

(** X16. At the test time [t = 0.5] the reference solution vanishes at
    every [x] when the wave speed is an odd integer (it is 1 in the
    notebook), in exact arithmetic: cos (c pi / 2) = 0.  The mean squared
    error reported on [t_test = torch.full_like(x_test, 0.5)] is then the
    mean of the squared predictions. *)
Theorem reference_vanishes_at_test_time
    (k : Z) (m : approximator R) (x : tensor R) :
  (forall a : R, u (exact_solution (IZR (2 * k + 1))) a lit_0_5 = 0) /\
  exists mse relative_error : R,
    calculate_accuracy (IZR (2 * k + 1)) m x (torch.full_like x lit_0_5 false)
      = Ok (mse, relative_error) /\
    mse = torch.mean (map (fun a => sq (u m a lit_0_5)) (data x)).
Proof.
  split; [intros a; apply exact_solution_at_test_time|].
  unfold calculate_accuracy.
  rewrite !call_same_length by (cbn; now rewrite length_map). cbn [bind].
  eexists; eexists; split; [reflexivity|].
  unfold values, tpow2, tsub, torch.full_like; cbn [fn arg_x arg_t data].
  rewrite !map2_const_r, map2_map_map, map_map. f_equal.
  apply map_ext. intros a.
  fold (u m a lit_0_5) (u (exact_solution (IZR (2 * k + 1))) a lit_0_5).
  rewrite exact_solution_at_test_time. unfold sq.
  change (@fsub R exact) with Rminus. now rewrite Rminus_0_r.
Qed.

End TestTime.

Lemma add_nan_l (b : float32) : SFadd prec emax S754_nan b = S754_nan.
Proof. reflexivity. Qed.

Lemma add_nan_r (a : float32) : SFadd prec emax a S754_nan = S754_nan.
Proof. destruct a; reflexivity. Qed.

Lemma abs_nan (q : float32) : is_nan (SFabs q) = is_nan q.
Proof. destruct q; reflexivity. Qed.

Lemma abs_not_negative (q : float32) :
  is_nan q = false -> not_negative (SFabs q) = true.
Proof. destruct q; try discriminate; reflexivity. Qed.

Lemma fold_add_nan (l : list float32) (acc : float32) :
  is_nan acc = true \/ existsb is_nan l = true ->
  fold_left (SFadd prec emax) l acc = S754_nan.
Proof.
  revert acc; induction l as [|v l IH]; intros acc [H|H]; cbn [fold_left existsb] in *.
  - destruct acc; try discriminate; reflexivity.
  - discriminate.
  - apply IH. left. destruct acc; try discriminate; reflexivity.
  - apply orb_true_iff in H as [H|H].
    + apply IH. left. destruct v; try discriminate. now rewrite add_nan_r.
    + apply IH. now right.
Qed.

Lemma add_infinity_l (b : float32) :
  not_negative b = true ->
  SFadd prec emax (S754_infinity false) b = S754_infinity false.
Proof. destruct b as [[|]|[|]| |[|] mb eb]; try discriminate; reflexivity. Qed.

Lemma add_infinity_r (a : float32) :
  not_negative a = true ->
  SFadd prec emax a (S754_infinity false) = S754_infinity false.
Proof. destruct a as [[|]|[|]| |[|] ma ea]; try discriminate; reflexivity. Qed.

Lemma fold_add_infinity (l : list float32) (acc : float32) :
  Forall (fun v => not_negative v = true) l -> not_negative acc = true ->
  acc = S754_infinity false \/ In (S754_infinity false) l ->
  fold_left (SFadd prec emax) l acc = S754_infinity false.
Proof.
  intros Hall. revert acc; induction Hall as [|v l Hv Hl IH]; intros acc Hacc [H|H];
    cbn [fold_left].
  - exact H.
  - destruct H.
  - apply IH; [now apply add_not_negative|]. left. subst acc.
    now apply add_infinity_l.
  - apply IH; [now apply add_not_negative|]. destruct H as [H|H].
    + left. subst v. now apply add_infinity_r.
    + now right.
Qed.

Lemma existsb_map_abs (l : list float32) :
  existsb is_nan (map SFabs l) = existsb is_nan l.
Proof. induction l as [|v l IH]; cbn; [reflexivity|]. now rewrite abs_nan, IH. Qed.

Lemma Forall_abs_not_negative (l : list float32) :
  existsb is_nan l = false ->
  Forall (fun v => not_negative v = true) (map SFabs l).
Proof.
  induction l as [|v l IH]; cbn; intros H; constructor;
    apply orb_false_iff in H as [Hv Hl]; [now apply abs_not_negative | now apply IH].
Qed.

Lemma quotient_by_zero (d : float32) (s : bool) :
  is_nan (SFdiv prec emax d (S754_zero s)) = false ->
  SFabs (SFdiv prec emax d (S754_zero s)) = S754_infinity false.
Proof. destruct d as [sd|sd| |sd md ed]; try discriminate; reflexivity. Qed.

Lemma existsb_false_nth (l : list float32) (i : nat) (v : float32) :
  existsb is_nan l = false -> nth_error l i = Some v -> is_nan v = false.
Proof.
  revert i; induction l as [|w l IH]; intros [|i] H Hn; cbn in *; try discriminate;
    apply orb_false_iff in H as [Hw Hl].
  - now inversion Hn; subst.
  - now apply (IH i).
Qed.

Section Binary32Accuracy.
Variable L : Libm.
#[local] Hint Extern 0 (Backend float32) => exact (binary32 L) : typeclass_instances.
Local Open Scope num_scope.

(** The mean of the absolute values of a list that holds a quotient by
    zero, times 100. *)
Lemma mean_abs_with_a_quotient_by_zero
    (Q : list float32) (i : nat) (d : float32) (s : bool) :
  positive_finite (of_Z (Z.of_nat (length Q))) = true ->
  nth_error Q i = Some (d / S754_zero s) ->
  torch.mean (torch.abs Q) * of_Z 100
  = if existsb is_nan Q then S754_nan else S754_infinity false.
Proof.
  intros HN Hq. unfold torch.mean, torch.sum, torch.abs.
  rewrite length_map.
  destruct (of_Z (Z.of_nat (length Q))) as [| | |[|] mN eN]; try discriminate.
  change (@fabs float32 _) with SFabs.
  destruct (existsb is_nan Q) eqn:HQ.
  - rewrite fold_add_nan by (right; now rewrite existsb_map_abs). reflexivity.
  - rewrite fold_add_infinity; [reflexivity | now apply Forall_abs_not_negative
                               | reflexivity |].
    right. apply in_map_iff. exists (d / S754_zero s).
    split; [|now apply nth_error_In in Hq].
    apply quotient_by_zero. exact (existsb_false_nth Q i _ HQ Hq).
Qed.

(** X17. In binary32, when the reference solution is a zero at some
    test point, the relative error returned by [calculate_accuracy] is plus
    infinity, unless one of the element-wise quotients is NaN (as it is
    where the prediction is itself zero or NaN at such a point), and then
    it is NaN. *)
Theorem relative_error_is_infinity_or_nan
    (c : float32) (m : approximator float32) (x t : tensor float32)
    (i : nat) (xi ti : float32) (s : bool) :
  length (data x) = length (data t) ->
  positive_finite (of_Z (Z.of_nat (length (data x)))) = true ->
  nth_error (data x) i = Some xi ->
  nth_error (data t) i = Some ti ->
  u (exact_solution c) xi ti = S754_zero s ->
  exists mse relative_error : float32,
    calculate_accuracy c m x t = Ok (mse, relative_error) /\
    relative_error =
      if existsb is_nan
           (map2 (fun a b => (u m a b - u (exact_solution c) a b)
                             / u (exact_solution c) a b)
              (data x) (data t))
      then S754_nan else S754_infinity false.
Proof.
  intros Hlen HN Hx Ht Hzero. unfold calculate_accuracy.
  rewrite !call_same_length by exact Hlen. cbn [bind].
  eexists; eexists; split; [reflexivity|].
  unfold tdiv, tsub, values; cbn [fn arg_x arg_t].
  rewrite !map2_map2. unfold u in *.
  apply (mean_abs_with_a_quotient_by_zero _ i
           (eval m xi ti - eval (exact_solution c) xi ti) s).
  - now rewrite map2_length.
  - rewrite <- Hzero. exact (nth_error_map2 _ _ _ i xi ti Hx Ht).
Qed.

Lemma mul_zero_finite (s : bool) (v : float32) :
  is_finite v = true -> exists s', SFmul prec emax (S754_zero s) v = S754_zero s'.
Proof. destruct v; try discriminate; intros _; eexists; reflexivity. Qed.

Lemma x_test_length : length (data (@x_test float32 (binary32 L))) = 100%nat.
Proof. unfold x_test, torch.linspace; cbn [data]. now rewrite length_map, length_seq. Qed.

(** X18. On the notebook's own test grid, [torch.linspace(0, 1, 100)] at
    [t = 0.5], the relative error is plus infinity or NaN for every model:
    the grid starts at [x = 0], where the reference solution is
    sin 0 * cos (c pi / 2).  All that is asked of the math library is
    that the sine of +0 is a zero and that the cosine is finite. *)
Theorem test_grid_relative_error_is_not_finite
    (c : float32) (m : approximator float32) (s : bool) :
  libm_sin L (S754_zero false) = S754_zero s ->
  is_finite (fcos (c * np.pi * lit_0_5)) = true ->
  exists mse relative_error : float32,
    calculate_accuracy c m x_test t_test = Ok (mse, relative_error) /\
    (relative_error = S754_nan \/ relative_error = S754_infinity false).
Proof.
  intros Hsin Hcos.
  assert (Hzero : exists s', u (exact_solution c) (S754_zero false) lit_0_5
                             = S754_zero s').
  { unfold u, exact_solution. cbn [eval].
    change (@fmul float32 _ np.pi (S754_zero false)) with (S754_zero false).
    change (@fsin float32 _) with (libm_sin L). rewrite Hsin.
    now apply mul_zero_finite. }
  destruct Hzero as [s' Hzero].
  assert (Hlen : length (data (@x_test float32 _)) = length (data (@t_test float32 _))).
  { unfold t_test, torch.full_like; cbn [data]. now rewrite length_map. }
  unfold calculate_accuracy.
  rewrite !call_same_length by exact Hlen. cbn [bind].
  eexists; eexists; split; [reflexivity|].
  unfold tdiv, tsub, values; cbn [fn arg_x arg_t].
  rewrite !map2_map2. unfold u in Hzero.
  rewrite (mean_abs_with_a_quotient_by_zero _ 0
             (eval m (S754_zero false) lit_0_5
              - eval (exact_solution c) (S754_zero false) lit_0_5) s').
  - destruct (existsb _ _); [now left | now right].
  - rewrite map2_length by exact Hlen. rewrite x_test_length. reflexivity.
  - rewrite <- Hzero. reflexivity.
Qed.

End Binary32Accuracy.

Lemma relative_error_is_infinity_or_nan_witness :
  u (exact_solution one) zero f32_half = S754_zero false /\
  exists mse relative_error : float32,
    calculate_accuracy one (forward (bias_pinn 1 one)) grid_x grid_t
      = Ok (mse, relative_error) /\
    relative_error = S754_infinity false.
Proof.
  split; [reflexivity|].
  destruct (relative_error_is_infinity_or_nan poly_libm one
              (forward (bias_pinn 1 one)) grid_x grid_t 0 zero f32_half false)
    as (mse & re & Hcall & Hre); try reflexivity.
  exists mse, re. split; [exact Hcall|]. rewrite Hre. vm_compute. reflexivity.
Defined.

Lemma test_grid_relative_error_is_not_finite_witness :
  exists mse relative_error : float32,
    calculate_accuracy one (forward (bias_pinn hidden one)) x_test t_test
      = Ok (mse, relative_error) /\
    (relative_error = S754_nan \/ relative_error = S754_infinity false).
Proof.
  apply (test_grid_relative_error_is_not_finite poly_libm one
           (forward (bias_pinn hidden one)) false).
  - reflexivity.
  - vm_compute. reflexivity.
Defined.
